(** * LinkShrink: short links, click recording and analytics roll-ups

    A shallow embedding of the storage layer ([DatabaseStorage], the
    implementation of [IStorage]), of the helpers of [utils.ts] and of the
    Express route handlers of [routes.ts], followed by the properties of the
    specification that they decide.

    Conventions of the embedding.
    - A table is the list of its rows in insertion order; a [select] keeps
      that order and [const [x] = await ...] takes the head.
    - An [async] method is a function from the store to the store it leaves
      and its outcome: a value, or the exception it threw.  There is no
      transaction in the source, so the writes made before a [throw] stay.
    - [new Date()] and [defaultNow()] read the clock: the instant read is the
      argument [now] of the operation (milliseconds since the epoch).
    - [gen_random_uuid()] gives a fresh opaque id: ids are numbers drawn from
      the counter [nextId] of the store.
    - A [jsonb] column of type [Record<string, number>] is a finite map.
    - The database is PostgreSQL ([drizzle-orm/pg-core]). The select list of
      [updateUrlAnalytics] writes [json_object_agg(k, count(c))], an aggregate
      call inside an aggregate call of the same query level. PostgreSQL
      refuses such a statement when it analyses it, before it reads a row
      (SQLSTATE 42803, "aggregate function calls cannot be nested"): the
      [await] of that select throws on every call.
    - A [varchar(n)] column refuses a longer value, a unique or foreign key
      constraint refuses the row that breaks it; the statement then throws
      and writes nothing. The table of users is outside the model: the
      [userId] of a new link is [req.user.id], the id of a user, so that the
      foreign key of [user_id] holds at creation.
    - A string is a text of ASCII characters, one [ascii] each: its length
      is its number of characters and [toLowerCase] folds the letters A-Z.
      Texts with other characters are outside the model. *)

From Stdlib Require Import ZArith Ascii String.
From stdpp Require Import gmap strings list fin_maps.

Local Open Scope string_scope.
Local Open Scope list_scope.
Local Open Scope Z_scope.

(** ** Outcomes and asynchronous methods *)

Inductive Exn : Type :=
  | ZodError (message : string)
  | DbError (message : string)
  | TypeError (message : string)
  | Error (message : string).

Inductive Outcome (A : Type) : Type :=
  | Ok (a : A)
  | Thrown (e : Exn).
Arguments Ok {A} a.
Arguments Thrown {A} e.

Definition Async (S A : Type) : Type := S -> S * Outcome A.

Definition ret {S A} (a : A) : Async S A := fun s => (s, Ok a).
Definition throw {S A} (e : Exn) : Async S A := fun s => (s, Thrown e).
Definition bind {S A B} (m : Async S A) (k : A -> Async S B) : Async S B :=
  fun s => match m s with
           | (s', Ok a) => k a s'
           | (s', Thrown e) => (s', Thrown e)
           end.
(** [try { m } catch (error) { h error }] *)
Definition try_catch {S A} (m : Async S A) (h : Exn -> Async S A) : Async S A :=
  fun s => match m s with
           | (s', Ok a) => (s', Ok a)
           | (s', Thrown e) => h e s'
           end.

Declare Scope async_scope.
Delimit Scope async_scope with async.
Notation "x <- m ;; k" := (bind m (fun x => k))
  (at level 100, m at next level, right associativity) : async_scope.
Notation "m ;;; k" := (bind m (fun _ => k))
  (at level 100, right associativity) : async_scope.
Local Open Scope async_scope.

(** ** The schema ([shared/schema.ts]) *)

Definition Id := N.
Definition Timestamp := Z.
(** A [Record<string, number>] stored in a [jsonb] column. *)
Abbreviation Counts := (gmap string Z).
(** The daily series: [date(clicked_at)] is the day number of the instant. *)
Abbreviation Daily := (gmap Z Z).

Module Url.
Record t : Type := mk {
  id : Id;
  originalUrl : string;
  shortCode : string;
  customAlias : option string;
  title : option string;
  description : option string;
  userId : option string;
  isActive : option bool;
  qrCodeUrl : option string;
  createdAt : option Timestamp;
  updatedAt : option Timestamp;
  expiresAt : option Timestamp
}.
End Url.

Module UrlClick.
Record t : Type := mk {
  id : Id;
  urlId : Id;
  ipAddress : option string;
  userAgent : option string;
  referer : option string;
  country : option string;
  city : option string;
  device : option string;
  browser : option string;
  os : option string;
  clickedAt : Timestamp
}.
End UrlClick.

Module UrlAnalytics.
Record t : Type := mk {
  id : Id;
  urlId : Id;
  totalClicks : option Z;
  uniqueClicks : option Z;
  clicksByCountry : option Counts;
  clicksByDevice : option Counts;
  clicksByBrowser : option Counts;
  clicksByReferer : option Counts;
  dailyClicks : option Daily;
  lastClickAt : option Timestamp;
  updatedAt : option Timestamp
}.
End UrlAnalytics.

(** [InsertUrl], the output of [insertUrlSchema]; [createUrl] takes it with
    an optional [shortCode]. An absent [isActive] takes the column default. *)
Record InsertUrl : Type := mkInsertUrl {
  ins_originalUrl : string;
  ins_shortCode : option string;
  ins_customAlias : option string;
  ins_title : option string;
  ins_description : option string;
  ins_userId : option string;
  ins_isActive : option (option bool);
  ins_qrCodeUrl : option string;
  ins_expiresAt : option Timestamp
}.

(** [Partial<InsertUrl>]: [None] is an absent key, for a nullable column
    [Some None] is an explicit [null]. *)
Record UrlPatch : Type := mkUrlPatch {
  upd_originalUrl : option string;
  upd_shortCode : option string;
  upd_customAlias : option (option string);
  upd_title : option (option string);
  upd_description : option (option string);
  upd_userId : option (option string);
  upd_isActive : option (option bool);
  upd_qrCodeUrl : option (option string);
  upd_expiresAt : option (option Timestamp)
}.

(** [InsertUrlClick]: [id] and [clickedAt] are omitted by the schema. *)
Record InsertUrlClick : Type := mkInsertUrlClick {
  clk_urlId : Id;
  clk_ipAddress : option string;
  clk_userAgent : option string;
  clk_referer : option string;
  clk_country : option string;
  clk_city : option string;
  clk_device : option string;
  clk_browser : option string;
  clk_os : option string
}.

(** The three tables the core uses, and the id counter. *)
Record Store : Type := mkStore {
  urls : list Url.t;
  urlClicks : list UrlClick.t;
  urlAnalytics : list UrlAnalytics.t;
  nextId : Id
}.

Definition emptyStore : Store :=
  {| urls := []; urlClicks := []; urlAnalytics := []; nextId := 0%N |}.

(** ** The storage interface ([IStorage]) *)

Class IStorage (S : Type) : Type := {
  getUrl : string -> Async S (option Url.t);
  getUrlById : Id -> Async S (option Url.t);
  createUrl : Timestamp -> string -> InsertUrl -> Async S Url.t;
  updateUrl : Timestamp -> Id -> UrlPatch -> Async S (option Url.t);
  deleteUrl : Id -> Async S unit;
  checkCustomAlias : string -> Async S bool;
  recordClick : Timestamp -> InsertUrlClick -> Async S unit;
  updateUrlAnalytics : Timestamp -> Id -> Async S unit;
  getUrlAnalytics : Id -> Async S (option UrlAnalytics.t)
}.

(** ** SQL building blocks *)

(** JavaScript truthiness of a string, and of an optional one. *)
Definition truthy (s : string) : bool := negb (String.eqb s "").
Definition truthy_opt (o : option string) : bool :=
  match o with Some s => truthy s | None => false end.
(** [a || b] on strings. *)
Definition or_else (a : option string) (b : string) : string :=
  match a with Some s => if truthy s then s else b | None => b end.

(** A [varchar(n)] column accepts [NULL] and the strings of at most [n]
    characters; a longer value makes the statement fail. *)
Definition fits (n : nat) (o : option string) : bool :=
  match o with Some s => Nat.leb (String.length s) n | None => true end.

Definition coalesce (o : option string) (dflt : string) : string :=
  match o with Some s => s | None => dflt end.

(** ** [DatabaseStorage] ([server/storage.ts]) *)

(** The row type of the select of [updateUrlAnalytics]: the fields of its
    select list with the types the source gives them. *)
Record ClicksData : Type := mkClicksData {
  cd_totalClicks : Z;
  cd_uniqueClicks : Z;
  cd_countries : Counts;
  cd_devices : Counts;
  cd_browsers : Counts;
  cd_referers : Counts;
  cd_dailyClicks : Daily;
  cd_lastClick : option Timestamp
}.

Module DatabaseStorage.

Definition set_urls (f : list Url.t -> list Url.t) (s : Store) : Store :=
  {| urls := f (urls s); urlClicks := urlClicks s;
     urlAnalytics := urlAnalytics s; nextId := nextId s |}.
Definition set_urlClicks (f : list UrlClick.t -> list UrlClick.t) (s : Store) : Store :=
  {| urls := urls s; urlClicks := f (urlClicks s);
     urlAnalytics := urlAnalytics s; nextId := nextId s |}.
Definition set_urlAnalytics (f : list UrlAnalytics.t -> list UrlAnalytics.t) (s : Store) : Store :=
  {| urls := urls s; urlClicks := urlClicks s;
     urlAnalytics := f (urlAnalytics s); nextId := nextId s |}.
(** [gen_random_uuid()] *)
Definition gen_random_uuid : Async Store Id :=
  fun s => ({| urls := urls s; urlClicks := urlClicks s;
               urlAnalytics := urlAnalytics s; nextId := N.succ (nextId s) |},
            Ok (nextId s)).

(** [where short_code = code and is_active = true] *)
Definition activeWithCode (code : string) (u : Url.t) : bool :=
  String.eqb (Url.shortCode u) code &&
  match Url.isActive u with Some true => true | _ => false end.

(** Lines 100-108. *)
Definition getUrl (shortCode : string) : Async Store (option Url.t) :=
  fun s => (s, Ok (head (List.filter (activeWithCode shortCode) (urls s)))).

(** Lines 110-126; the joined analytics row, which no handler of the core
    reads, is left out of the result. *)
Definition getUrlById (id : Id) : Async Store (option Url.t) :=
  fun s => (s, Ok (head (List.filter (fun u => N.eqb (Url.id u) id) (urls s)))).

(** [insert into urls]: the [varchar] lengths and the unique constraint on
    [short_code], which spans every row, retired ones included. *)
Definition insertUrl (now : Timestamp) (shortCode : string) (ins : InsertUrl)
  : Async Store Url.t :=
  fun s =>
    if negb (fits 12 (Some shortCode) && fits 50 (ins_customAlias ins)
             && fits 200 (ins_title ins))
    then (s, Thrown (DbError "value too long for type character varying"))
    else if existsb (fun u => String.eqb (Url.shortCode u) shortCode) (urls s)
    then (s, Thrown (DbError "duplicate key value violates unique constraint urls_short_code_unique"))
    else
      (id <- gen_random_uuid ;;
       let url :=
         {| Url.id := id;
            Url.originalUrl := ins_originalUrl ins;
            Url.shortCode := shortCode;
            Url.customAlias := ins_customAlias ins;
            Url.title := ins_title ins;
            Url.description := ins_description ins;
            Url.userId := ins_userId ins;
            Url.isActive := match ins_isActive ins with
                            | Some v => v
                            | None => Some true
                            end;
            Url.qrCodeUrl := ins_qrCodeUrl ins;
            Url.createdAt := Some now;
            Url.updatedAt := Some now;
            Url.expiresAt := ins_expiresAt ins |} in
       fun s1 => (set_urls (fun rows => rows ++ [url]) s1, Ok url)) s.

Definition hasUrl (urlId : Id) (s : Store) : bool :=
  existsb (fun u => N.eqb (Url.id u) urlId) (urls s).
Definition hasAnalytics (urlId : Id) (s : Store) : bool :=
  existsb (fun a => N.eqb (UrlAnalytics.urlId a) urlId) (urlAnalytics s).

(** The row [createUrl] inserts: the counters at 0, the other columns at
    their defaults. *)
Definition emptyAnalytics (id urlId : Id) (now : Timestamp) : UrlAnalytics.t :=
  {| UrlAnalytics.id := id;
     UrlAnalytics.urlId := urlId;
     UrlAnalytics.totalClicks := Some 0;
     UrlAnalytics.uniqueClicks := Some 0;
     UrlAnalytics.clicksByCountry := Some ∅;
     UrlAnalytics.clicksByDevice := Some ∅;
     UrlAnalytics.clicksByBrowser := Some ∅;
     UrlAnalytics.clicksByReferer := Some ∅;
     UrlAnalytics.dailyClicks := Some ∅;
     UrlAnalytics.lastClickAt := None;
     UrlAnalytics.updatedAt := Some now |}.

(** [insert into url_analytics] of lines 159-163: the unique index on
    [url_id] is checked when the row is inserted, the foreign key to [urls]
    after it. *)
Definition insertEmptyAnalytics (now : Timestamp) (urlId : Id) : Async Store unit :=
  fun s =>
    if hasAnalytics urlId s
    then (s, Thrown (DbError "duplicate key value violates unique constraint url_analytics_url_id_unique"))
    else if negb (hasUrl urlId s)
    then (s, Thrown (DbError "violates foreign key constraint url_analytics_url_id_urls_id_fk"))
    else
      (id <- gen_random_uuid ;;
       fun s1 => (set_urlAnalytics (fun rows => rows ++ [emptyAnalytics id urlId now]) s1,
                  Ok tt)) s.

(** [private generateShortCode()]: [gen] is what [nanoid(8)] gives there. *)
Definition generateShortCode (gen : string) : string := gen.

(** Lines 147-166. *)
Definition createUrl (now : Timestamp) (gen : string) (insertUrl_ : InsertUrl)
  : Async Store Url.t :=
  let shortCode := or_else (ins_shortCode insertUrl_) (generateShortCode gen) in
  url <- insertUrl now shortCode insertUrl_ ;;
  insertEmptyAnalytics now (Url.id url) ;;;
  ret url.

Definition patched {A} (new : option A) (old : A) : A :=
  match new with Some v => v | None => old end.

(** [set({...updates, updatedAt: new Date()})] on one row. *)
Definition applyUpdates (now : Timestamp) (updates : UrlPatch) (u : Url.t) : Url.t :=
  {| Url.id := Url.id u;
     Url.originalUrl := patched (upd_originalUrl updates) (Url.originalUrl u);
     Url.shortCode := patched (upd_shortCode updates) (Url.shortCode u);
     Url.customAlias := patched (upd_customAlias updates) (Url.customAlias u);
     Url.title := patched (upd_title updates) (Url.title u);
     Url.description := patched (upd_description updates) (Url.description u);
     Url.userId := patched (upd_userId updates) (Url.userId u);
     Url.isActive := patched (upd_isActive updates) (Url.isActive u);
     Url.qrCodeUrl := patched (upd_qrCodeUrl updates) (Url.qrCodeUrl u);
     Url.createdAt := Url.createdAt u;
     Url.updatedAt := Some now;
     Url.expiresAt := patched (upd_expiresAt updates) (Url.expiresAt u) |}.

Definition updateRow (now : Timestamp) (id : Id) (updates : UrlPatch) (u : Url.t) : Url.t :=
  if N.eqb (Url.id u) id then applyUpdates now updates u else u.

(** The constraints an [update urls] can break on the row [u]. *)
Definition updateViolates (updates : UrlPatch) (rows : list Url.t) (u : Url.t) : bool :=
  negb (fits 12 (Some (patched (upd_shortCode updates) (Url.shortCode u)))
        && fits 50 (patched (upd_customAlias updates) (Url.customAlias u))
        && fits 200 (patched (upd_title updates) (Url.title u)))
  || match upd_shortCode updates with
     | Some c => existsb (fun v => negb (N.eqb (Url.id v) (Url.id u))
                                   && String.eqb (Url.shortCode v) c) rows
     | None => false
     end.

(** Lines 168-178; [undefined] when no row has this id. *)
Definition updateUrl (now : Timestamp) (id : Id) (updates : UrlPatch)
  : Async Store (option Url.t) :=
  fun s =>
    let targets := List.filter (fun u => N.eqb (Url.id u) id) (urls s) in
    if existsb (updateViolates updates (urls s)) targets
    then (s, Thrown (DbError "update on table urls violates a constraint"))
    else (set_urls (List.map (updateRow now id updates)) s,
          Ok (head (List.map (applyUpdates now updates) targets))).

Definition retire (u : Url.t) : Url.t :=
  {| Url.id := Url.id u;
     Url.originalUrl := Url.originalUrl u;
     Url.shortCode := Url.shortCode u;
     Url.customAlias := Url.customAlias u;
     Url.title := Url.title u;
     Url.description := Url.description u;
     Url.userId := Url.userId u;
     Url.isActive := Some false;
     Url.qrCodeUrl := Url.qrCodeUrl u;
     Url.createdAt := Url.createdAt u;
     Url.updatedAt := Url.updatedAt u;
     Url.expiresAt := Url.expiresAt u |}.

(** Lines 180-182. *)
Definition deleteUrl (id : Id) : Async Store unit :=
  fun s => (set_urls (List.map (fun u => if N.eqb (Url.id u) id then retire u else u)) s,
            Ok tt).

(** Lines 184-196. *)
Definition checkCustomAlias (alias : string) : Async Store bool :=
  fun s => (s, Ok (match List.filter (activeWithCode alias) (urls s) with
                   | [] => false
                   | _ :: _ => true
                   end)).

(** [insert into url_clicks]: the [varchar] lengths are checked when the
    row is formed, the foreign key to [urls] when it is inserted; [id] and
    [clicked_at] take their defaults. *)
Definition insertClick (now : Timestamp) (c : InsertUrlClick) : Async Store unit :=
  fun s =>
    if negb (fits 45 (clk_ipAddress c) && fits 2 (clk_country c)
             && fits 100 (clk_city c) && fits 50 (clk_device c)
             && fits 50 (clk_browser c) && fits 50 (clk_os c))
    then (s, Thrown (DbError "value too long for type character varying"))
    else if negb (hasUrl (clk_urlId c) s)
    then (s, Thrown (DbError "violates foreign key constraint url_clicks_url_id_urls_id_fk"))
    else
      (id <- gen_random_uuid ;;
       let row :=
         {| UrlClick.id := id;
            UrlClick.urlId := clk_urlId c;
            UrlClick.ipAddress := clk_ipAddress c;
            UrlClick.userAgent := clk_userAgent c;
            UrlClick.referer := clk_referer c;
            UrlClick.country := clk_country c;
            UrlClick.city := clk_city c;
            UrlClick.device := clk_device c;
            UrlClick.browser := clk_browser c;
            UrlClick.os := clk_os c;
            UrlClick.clickedAt := now |} in
       fun s1 => (set_urlClicks (fun rows => rows ++ [row]) s1, Ok tt)) s.

(** [from url_clicks where url_id = urlId] *)
Definition clicksOf (urlId : Id) (s : Store) : list UrlClick.t :=
  List.filter (fun c => N.eqb (UrlClick.urlId c) urlId) (urlClicks s).

(** The select of lines 206-244. Five members of its select list are
    [json_object_agg(k, count(c))]: the aggregate [count] is an argument of
    the aggregate [json_object_agg], both of the one query level that
    [group by url_id] forms. PostgreSQL rejects the statement when it
    analyses it, whatever the tables hold, so the [await] throws and no row
    reaches [clicksData]. *)
Definition selectClicksData (urlId : Id) : Async Store (list ClicksData) :=
  throw (DbError "aggregate function calls cannot be nested").

(** The row of [values({...})] at lines 250-260. *)
Definition newAnalytics (id urlId : Id) (data : ClicksData) (now : Timestamp)
  : UrlAnalytics.t :=
  {| UrlAnalytics.id := id;
     UrlAnalytics.urlId := urlId;
     UrlAnalytics.totalClicks := Some (cd_totalClicks data);
     UrlAnalytics.uniqueClicks := Some (cd_uniqueClicks data);
     UrlAnalytics.clicksByCountry := Some (cd_countries data);
     UrlAnalytics.clicksByDevice := Some (cd_devices data);
     UrlAnalytics.clicksByBrowser := Some (cd_browsers data);
     UrlAnalytics.clicksByReferer := Some (cd_referers data);
     UrlAnalytics.dailyClicks := Some (cd_dailyClicks data);
     UrlAnalytics.lastClickAt := cd_lastClick data;
     UrlAnalytics.updatedAt := Some now |}.

(** The [set: {...}] of lines 263-273 on an existing row. *)
Definition overwrite (data : ClicksData) (now : Timestamp) (a : UrlAnalytics.t)
  : UrlAnalytics.t :=
  newAnalytics (UrlAnalytics.id a) (UrlAnalytics.urlId a) data now.

(** Lines 248-274: [insert ... on conflict (url_id) do update]. *)
Definition upsertAnalytics (now : Timestamp) (urlId : Id) (data : ClicksData)
  : Async Store unit :=
  fun s =>
    if hasAnalytics urlId s
    then (set_urlAnalytics
            (List.map (fun a => if N.eqb (UrlAnalytics.urlId a) urlId
                                then overwrite data now a else a)) s,
          Ok tt)
    else if negb (hasUrl urlId s)
    then (s, Thrown (DbError "violates foreign key constraint url_analytics_url_id_urls_id_fk"))
    else
      (id <- gen_random_uuid ;;
       fun s1 => (set_urlAnalytics (fun rows => rows ++ [newAnalytics id urlId data now]) s1,
                  Ok tt)) s.

(** Lines 204-276: the select, then the guard [clicksData.length > 0] and
    the upsert of [clicksData[0]]. *)
Definition updateUrlAnalytics (now : Timestamp) (urlId : Id) : Async Store unit :=
  clicksData <- selectClicksData urlId ;;
  match clicksData with
  | data :: _ => upsertAnalytics now urlId data
  | [] => ret tt
  end.

(** Lines 199-202: the insert of the click row, then the recomputation. *)
Definition recordClick (now : Timestamp) (insertClick_ : InsertUrlClick)
  : Async Store unit :=
  insertClick now insertClick_ ;;;
  updateUrlAnalytics now (clk_urlId insertClick_).

(** Lines 278-284. *)
Definition getUrlAnalytics (urlId : Id) : Async Store (option UrlAnalytics.t) :=
  fun s => (s, Ok (head (List.filter (fun a => N.eqb (UrlAnalytics.urlId a) urlId)
                                      (urlAnalytics s)))).

End DatabaseStorage.

#[export] Instance databaseStorage : IStorage Store := {|
  getUrl := DatabaseStorage.getUrl;
  getUrlById := DatabaseStorage.getUrlById;
  createUrl := DatabaseStorage.createUrl;
  updateUrl := DatabaseStorage.updateUrl;
  deleteUrl := DatabaseStorage.deleteUrl;
  checkCustomAlias := DatabaseStorage.checkCustomAlias;
  recordClick := DatabaseStorage.recordClick;
  updateUrlAnalytics := DatabaseStorage.updateUrlAnalytics;
  getUrlAnalytics := DatabaseStorage.getUrlAnalytics
|}.

(** ** Helpers of [server/utils.ts] *)

Definition lower_ascii (c : ascii) : ascii :=
  let n := nat_of_ascii c in
  if Nat.leb 65 n && Nat.leb n 90 then ascii_of_nat (n + 32) else c.

(** [toLowerCase()] on the ASCII letters. *)
Fixpoint toLowerCase (s : string) : string :=
  match s with
  | EmptyString => EmptyString
  | String c t => String (lower_ascii c) (toLowerCase t)
  end.

(** [s.includes(needle)] *)
Fixpoint includes (s needle : string) : bool :=
  String.prefix needle s ||
  match s with
  | EmptyString => false
  | String _ t => includes t needle
  end.

(** Lines 37-62; the result is [(browser, os, device)]. *)
Definition parseUserAgent (userAgent : string) : string * string * string :=
  let ua := toLowerCase userAgent in
  let browser :=
    if includes ua "chrome" && negb (includes ua "edg") then "Chrome"
    else if includes ua "firefox" then "Firefox"
    else if includes ua "safari" && negb (includes ua "chrome") then "Safari"
    else if includes ua "edg" then "Edge"
    else if includes ua "opera" || includes ua "opr" then "Opera"
    else "Unknown" in
  let os :=
    if includes ua "windows" then "Windows"
    else if includes ua "mac" then "macOS"
    else if includes ua "linux" then "Linux"
    else if includes ua "android" then "Android"
    else if includes ua "ios" || includes ua "iphone" || includes ua "ipad" then "iOS"
    else "Unknown" in
  let device :=
    if includes ua "mobile" || includes ua "android" || includes ua "iphone" then "Mobile"
    else if includes ua "tablet" || includes ua "ipad" then "Tablet"
    else "Desktop" in
  (browser, os, device).

(** ** The route handlers ([server/routes.ts]) *)

Inductive Body : Type :=
  | Text (text : string)
  | Message (message : string)
  | Location (target : string)
  | ShortUrl (url : Url.t) (shortUrl : string).

Record Response : Type := mkResponse {
  status : Z;
  body : Body
}.

(** What the redirect route reads of the request. *)
Record RedirectRequest : Type := mkRedirectRequest {
  req_shortCode : string;
  req_userAgent : option string;
  req_referer : option string;
  req_ip : option string;
  req_remoteAddress : option string
}.

Section Routes.
Context {S : Type} `{IStorage S}.

(** [new URL(url).hostname] of the platform, [None] when the constructor
    throws; [QRCode.toDataURL] of the [qrcode] package, [None] when it
    rejects. *)
Variable URL_hostname : string -> option string.
Variable QRCode_toDataURL : string -> option string.

(** Lines 64-70 of [utils.ts]. *)
Definition extractDomain (url : string) : string :=
  match URL_hostname url with
  | Some hostname => hostname
  | None => "Direct"
  end.

(** Lines 28-35 of [utils.ts]. *)
Definition generateQRCode (url : string) : Async S string :=
  match QRCode_toDataURL url with
  | Some dataUrl => ret dataUrl
  | None => throw (Error "Failed to generate QR code")
  end.

(** The argument of [storage.recordClick] at lines 311-328. The constant
    [referer] of line 313 is computed and not read again. *)
Definition clickOf (url : Url.t) (req : RedirectRequest) : InsertUrlClick :=
  let userAgent := or_else (req_userAgent req) "" in
  let '(browser, os, device) := parseUserAgent userAgent in
  let referer := extractDomain (or_else (req_referer req) "") in
  let ipAddress := or_else (req_ip req) (or_else (req_remoteAddress req) "") in
  let country := "US" in
  {| clk_urlId := Url.id url;
     clk_ipAddress := Some ipAddress;
     clk_userAgent := Some userAgent;
     clk_referer := if truthy_opt (req_referer req) then req_referer req else None;
     clk_country := Some country;
     clk_city := None;
     clk_device := Some device;
     clk_browser := Some browser;
     clk_os := Some os |}.

(** [GET /:shortCode], lines 301-335. *)
Definition redirectRoute (now : Timestamp) (req : RedirectRequest) : Async S Response :=
  try_catch
    (url <- getUrl (req_shortCode req) ;;
     match url with
     | None => ret (mkResponse 404 (Text "URL not found"))
     | Some url =>
         recordClick now (clickOf url req) ;;;
         ret (mkResponse 301 (Location (Url.originalUrl url)))
     end)
    (fun error => ret (mkResponse 500 (Text "Server error"))).

(** The argument of [storage.createUrl] at lines 127-132:
    [{...validatedData, shortCode, userId: req.user?.id, qrCodeUrl}]. *)
Definition createArgs (validatedData : InsertUrl) (shortCode : string)
    (user : option string) (qrCodeDataUrl : string) : InsertUrl :=
  {| ins_originalUrl := ins_originalUrl validatedData;
     ins_shortCode := Some shortCode;
     ins_customAlias := ins_customAlias validatedData;
     ins_title := ins_title validatedData;
     ins_description := ins_description validatedData;
     ins_userId := user;
     ins_isActive := ins_isActive validatedData;
     ins_qrCodeUrl := Some qrCodeDataUrl;
     ins_expiresAt := ins_expiresAt validatedData |}.

(** [POST /api/urls], lines 108-150. [parsed] is the verdict of
    [insertUrlSchema.parse(req.body)], [user] is [req.user?.id], and
    [nano k] is what the call number [k] of [nanoid(8)] returns. *)
Definition createRoute (now : Timestamp) (nano : nat -> string)
    (user : option string) (baseUrl : string) (parsed : Outcome InsertUrl)
  : Async S Response :=
  try_catch
    (validatedData <- (fun s => (s, parsed)) ;;
     isAliasUsed <- (if truthy_opt (ins_customAlias validatedData)
                     then checkCustomAlias (coalesce (ins_customAlias validatedData) "")
                     else ret false) ;;
     if (isAliasUsed : bool)
     then ret (mkResponse 400 (Message "Custom alias is already taken"))
     else
       let shortCode := or_else (ins_customAlias validatedData) (nano 0%nat) in
       let shortUrl := (baseUrl ++ "/" ++ shortCode)%string in
       qrCodeDataUrl <- generateQRCode shortUrl ;;
       url <- createUrl now (nano 1%nat)
                (createArgs validatedData shortCode user qrCodeDataUrl) ;;
       ret (mkResponse 200 (ShortUrl url shortUrl)))
    (fun error =>
       match error with
       | ZodError message => ret (mkResponse 400 (Message message))
       | _ => ret (mkResponse 500 (Message "Failed to create short URL"))
       end).

Definition with_shortCode (updates : UrlPatch) (code : string) : UrlPatch :=
  {| upd_originalUrl := upd_originalUrl updates;
     upd_shortCode := Some code;
     upd_customAlias := upd_customAlias updates;
     upd_title := upd_title updates;
     upd_description := upd_description updates;
     upd_userId := upd_userId updates;
     upd_isActive := upd_isActive updates;
     upd_qrCodeUrl := upd_qrCodeUrl updates;
     upd_expiresAt := upd_expiresAt updates |}.

(** [updates.customAlias && updates.customAlias !== url.customAlias]:
    the alias the request moves the link to, if any. *)
Definition newAlias (updates : UrlPatch) (url : Url.t) : option string :=
  match upd_customAlias updates with
  | Some (Some a) =>
      if truthy a && negb (bool_decide (Some a = Url.customAlias url))
      then Some a else None
  | _ => None
  end.

(** Lines 273-277. *)
Definition applyUpdate (now : Timestamp) (id : Id) (updates : UrlPatch)
    (baseUrl : string) : Async S Response :=
  updatedUrl <- updateUrl now id updates ;;
  match updatedUrl with
  | Some updatedUrl =>
      ret (mkResponse 200
             (ShortUrl updatedUrl (baseUrl ++ "/" ++ Url.shortCode updatedUrl)%string))
  | None => throw (TypeError "Cannot read properties of undefined")
  end.

(** [PUT /api/urls/:id], lines 255-282, behind [requireAuth]: [user] is
    [req.user!.id] and [updates] is [req.body], read as a
    [Partial<InsertUrl>]. A JSON body carries no [Date], and below the
    storage interface the column mapper of [expires_at] throws on any other
    value that is not null, as the foreign key of [user_id] refuses a
    [userId] that is no user: the model has neither, and the properties that
    promise a successful update are stated for bodies without these keys. *)
Definition updateRoute (now : Timestamp) (user : string) (id : Id)
    (updates : UrlPatch) (baseUrl : string) : Async S Response :=
  try_catch
    (url <- getUrlById id ;;
     match url with
     | None => ret (mkResponse 404 (Message "URL not found"))
     | Some url =>
         if negb (bool_decide (Url.userId url = Some user))
         then ret (mkResponse 404 (Message "URL not found"))
         else
           match newAlias updates url with
           | Some alias =>
               isAliasUsed <- checkCustomAlias alias ;;
               if (isAliasUsed : bool)
               then ret (mkResponse 400 (Message "Custom alias is already taken"))
               else applyUpdate now id (with_shortCode updates alias) baseUrl
           | None => applyUpdate now id updates baseUrl
           end
     end)
    (fun error => ret (mkResponse 500 (Message "Failed to update URL"))).

(** [DELETE /api/urls/:id], lines 285-298. *)
Definition deleteRoute (user : string) (id : Id) : Async S Response :=
  try_catch
    (url <- getUrlById id ;;
     match url with
     | None => ret (mkResponse 404 (Message "URL not found"))
     | Some url =>
         if negb (bool_decide (Url.userId url = Some user))
         then ret (mkResponse 404 (Message "URL not found"))
         else
           deleteUrl id ;;;
           ret (mkResponse 200 (Message "URL deleted successfully"))
     end)
    (fun error => ret (mkResponse 500 (Message "Failed to delete URL"))).
End Routes.

(** ** Histories of the store *)

(** The calls of [IStorage] that write. *)
Inductive Call : Type :=
  | CreateUrl (now : Timestamp) (gen : string) (insertUrl : InsertUrl)
  | UpdateUrl (now : Timestamp) (id : Id) (updates : UrlPatch)
  | DeleteUrl (id : Id)
  | RecordClick (now : Timestamp) (insertClick : InsertUrlClick)
  | UpdateUrlAnalytics (now : Timestamp) (urlId : Id).

(** The store a call leaves, whether it returns or throws. *)
Definition after (c : Call) (s : Store) : Store :=
  match c with
  | CreateUrl now gen ins => fst (DatabaseStorage.createUrl now gen ins s)
  | UpdateUrl now id updates => fst (DatabaseStorage.updateUrl now id updates s)
  | DeleteUrl id => fst (DatabaseStorage.deleteUrl id s)
  | RecordClick now c => fst (DatabaseStorage.recordClick now c s)
  | UpdateUrlAnalytics now urlId => fst (DatabaseStorage.updateUrlAnalytics now urlId s)
  end.

(** The stores the service can be in: the empty database, then any calls. *)
Inductive reachable : Store -> Prop :=
  | reachable_empty : reachable emptyStore
  | reachable_after (c : Call) (s : Store) : reachable s -> reachable (after c s).

(** What the constraints of the schema and the shape of [createUrl] keep
    true of every reachable store. *)
Record consistent (s : Store) : Prop := mkConsistent {
  url_ids_issued : forall u, In u (urls s) -> (Url.id u < nextId s)%N;
  url_ids_unique : List.NoDup (List.map Url.id (urls s));
  shortCodes_unique : List.NoDup (List.map Url.shortCode (urls s));
  shortCodes_fit : forall u, In u (urls s) -> fits 12 (Some (Url.shortCode u)) = true;
  analytics_refer : forall a, In a (urlAnalytics s) -> (UrlAnalytics.urlId a < nextId s)%N;
  analytics_present : forall u, In u (urls s) ->
      DatabaseStorage.hasAnalytics (Url.id u) s = true;
  analytics_start_at_0 : forall a, In a (urlAnalytics s) ->
      DatabaseStorage.clicksOf (UrlAnalytics.urlId a) s = [] ->
      UrlAnalytics.totalClicks a = Some 0
}.

(** The snapshot row of a link, as [getUrlAnalytics] reads it. *)
Definition snapshot (urlId : Id) (s : Store) : option UrlAnalytics.t :=
  match snd (DatabaseStorage.getUrlAnalytics urlId s) with
  | Ok a => a
  | Thrown _ => None
  end.

(** The allocator in the words of the specification (section 4.1): draw a
    code, check it against the active codes, draw again on a collision, and
    give up with a [ResourceExhaustedError] after [attempts] draws. It is the
    yardstick the allocation of [createRoute] is compared with. *)
Fixpoint spec_allocate (attempts : nat) (active : string -> bool)
    (nano : nat -> string) (k : nat) : Outcome string :=
  match attempts with
  | O => Thrown (Error "ResourceExhaustedError")
  | S n => if active (nano k)
           then spec_allocate n active nano (S k)
           else Ok (nano k)
  end.

(** Is [code] the short code of an active link of [s]? *)
Definition activeCode (s : Store) (code : string) : bool :=
  match snd (DatabaseStorage.checkCustomAlias code s) with
  | Ok b => b
  | Thrown _ => false
  end.

(** ** A small history used in the examples *)

Module Demo.
Definition link (expiresAt : option Timestamp) : InsertUrl :=
  {| ins_originalUrl := "https://example.com/a";
     ins_shortCode := Some "abcdefgh";
     ins_customAlias := None;
     ins_title := None;
     ins_description := None;
     ins_userId := Some "u1";
     ins_isActive := None;
     ins_qrCodeUrl := None;
     ins_expiresAt := expiresAt |}.

(** The row of that link. *)
Definition stored (expiresAt : option Timestamp) : Url.t :=
  {| Url.id := 0%N;
     Url.originalUrl := "https://example.com/a";
     Url.shortCode := "abcdefgh";
     Url.customAlias := None;
     Url.title := None;
     Url.description := None;
     Url.userId := Some "u1";
     Url.isActive := Some true;
     Url.qrCodeUrl := None;
     Url.createdAt := Some 100;
     Url.updatedAt := Some 100;
     Url.expiresAt := expiresAt |}.

(** One link, no click. *)
Definition created : Store := after (CreateUrl 100 "zzzzzzzz" (link None)) emptyStore.

(** The same link with an expiry instant. *)
Definition expiring : Store :=
  after (CreateUrl 100 "zzzzzzzz" (link (Some 1000))) emptyStore.

(** The link retired. *)
Definition retired : Store := after (DeleteUrl 0%N) created.

Definition visit (referer : option string) (ip : string) : RedirectRequest :=
  {| req_shortCode := "abcdefgh";
     req_userAgent := Some "Mozilla/5.0 (X11; Linux x86_64) Chrome/115.0 Safari/537.36";
     req_referer := referer;
     req_ip := Some ip;
     req_remoteAddress := None |}.

Definition hostname (url : string) : option string :=
  if String.eqb url "" then None else Some "example.com".
Definition toDataURL (url : string) : option string := Some "data:image/png;base64,".

(** The click of a visitor who sends no [Referer] header. *)
Definition click : InsertUrlClick :=
  {| clk_urlId := 0%N;
     clk_ipAddress := Some "203.0.113.7";
     clk_userAgent := Some "Mozilla/5.0 (X11; Linux x86_64) Chrome/115.0 Safari/537.36";
     clk_referer := None;
     clk_country := Some "US";
     clk_city := None;
     clk_device := Some "Desktop";
     clk_browser := Some "Chrome";
     clk_os := Some "Linux" |}.

(** The store [recordClick] leaves for that click at instant 200. *)
Definition clicked : Store := after (RecordClick 200 click) created.

(** The draws of [nanoid(8)]: the first is taken, the later ones are free. *)
Definition draws (k : nat) : string :=
  match k with O => "abcdefgh" | _ => "zzzzzzzz" end.

Definition body : InsertUrl :=
  {| ins_originalUrl := "https://example.com/b";
     ins_shortCode := Some "ignored";
     ins_customAlias := None;
     ins_title := None;
     ins_description := None;
     ins_userId := None;
     ins_isActive := None;
     ins_qrCodeUrl := None;
     ins_expiresAt := None |}.

Definition withAlias (alias : string) : InsertUrl :=
  {| ins_originalUrl := "https://example.com/b";
     ins_shortCode := Some "ignored";
     ins_customAlias := Some alias;
     ins_title := None;
     ins_description := None;
     ins_userId := None;
     ins_isActive := None;
     ins_qrCodeUrl := None;
     ins_expiresAt := None |}.

Definition rename (alias : string) : UrlPatch :=
  {| upd_originalUrl := None;
     upd_shortCode := None;
     upd_customAlias := Some (Some alias);
     upd_title := None;
     upd_description := None;
     upd_userId := None;
     upd_isActive := None;
     upd_qrCodeUrl := None;
     upd_expiresAt := None |}.

Definition retitle (title : string) : UrlPatch :=
  {| upd_originalUrl := None;
     upd_shortCode := None;
     upd_customAlias := None;
     upd_title := Some (Some title);
     upd_description := None;
     upd_userId := None;
     upd_isActive := None;
     upd_qrCodeUrl := None;
     upd_expiresAt := None |}.
End Demo.


(** ** Further parts of the schema, the storage and the routes *)

(** The rule of [customAlias] in [insertUrlSchema] and [bulkUrlSchema]
    ([shared/schema.ts], lines 130 and 136): [min(3)], [max(50)] and the
    pattern [^[a-zA-Z0-9_-]+$]. *)
Definition aliasChar (c : ascii) : bool :=
  let n := nat_of_ascii c in
  (Nat.leb 97 n && Nat.leb n 122) || (Nat.leb 65 n && Nat.leb n 90)
  || (Nat.leb 48 n && Nat.leb n 57) || Nat.eqb n 95 || Nat.eqb n 45.

Fixpoint allChars (p : ascii -> bool) (s : string) : bool :=
  match s with
  | EmptyString => true
  | String c t => p c && allChars p t
  end.

Definition customAliasValid (alias : string) : bool :=
  Nat.leb 3 (String.length alias) && Nat.leb (String.length alias) 50
  && truthy alias && allChars aliasChar alias.

(** [error.message] *)
Definition message_of (e : Exn) : string :=
  match e with
  | ZodError m | DbError m | TypeError m | Error m => m
  end.

(** A snapshot row as [createUrl] inserts it: the counters at 0, the maps
    empty, no last click. *)
Definition asCreated (a : UrlAnalytics.t) : Prop :=
  exists now,
    a = DatabaseStorage.emptyAnalytics (UrlAnalytics.id a) (UrlAnalytics.urlId a) now.

(** The references between the tables: what the foreign keys of
    [url_clicks] and [url_analytics] and the unique constraint on
    [url_analytics.url_id] state. *)
Record referential (s : Store) : Prop := mkReferential {
  clicks_refer : forall c, In c (urlClicks s) ->
      DatabaseStorage.hasUrl (UrlClick.urlId c) s = true;
  snapshots_refer : forall a, In a (urlAnalytics s) ->
      DatabaseStorage.hasUrl (UrlAnalytics.urlId a) s = true;
  snapshots_unique : List.NoDup (List.map UrlAnalytics.urlId (urlAnalytics s))
}.


(** One element of [urls] in the body of [POST /api/urls/bulk]. *)
Record BulkItem : Type := mkBulkItem {
  item_originalUrl : string;
  item_customAlias : option string
}.

(** One element of [errors] in its answer. *)
Record BulkError : Type := mkBulkError {
  err_originalUrl : string;
  err_error : string
}.

Inductive BulkBody : Type :=
  | BulkDone (results : list (Url.t * string)) (errors : list BulkError)
  | BulkMessage (message : string).

Record BulkResponse : Type := mkBulkResponse {
  bulk_status : Z;
  bulk_body : BulkBody
}.

Section BulkRoute.
Context {S : Type} `{IStorage S}.
Variable QRCode_toDataURL : string -> option string.

(** The argument of [storage.createUrl] at lines 176-181:
    [{...urlData, shortCode, userId: req.user!.id, qrCodeUrl}]. *)
Definition bulkArgs (urlData : BulkItem) (shortCode : string) (user : string)
    (qrCodeDataUrl : string) : InsertUrl :=
  {| ins_originalUrl := item_originalUrl urlData;
     ins_shortCode := Some shortCode;
     ins_customAlias := item_customAlias urlData;
     ins_title := None;
     ins_description := None;
     ins_userId := Some user;
     ins_isActive := None;
     ins_qrCodeUrl := Some qrCodeDataUrl;
     ins_expiresAt := None |}.

(** The body of the loop, lines 160-194: the new entry of [results] (the
    row and its [shortUrl]) or of [errors]. [nano k] is what the call number
    [k] of [nanoid(8)] returns while this item is handled. *)
Definition bulkItem (now : Timestamp) (nano : nat -> string) (user : string)
    (baseUrl : string) (urlData : BulkItem)
  : Async S (Url.t * string + BulkError) :=
  try_catch
    (isAliasUsed <- (if truthy_opt (item_customAlias urlData)
                     then checkCustomAlias (coalesce (item_customAlias urlData) "")
                     else ret false) ;;
     if (isAliasUsed : bool)
     then ret (inr {| err_originalUrl := item_originalUrl urlData;
                      err_error := "Custom alias is already taken" |})
     else
       let shortCode := or_else (item_customAlias urlData) (nano 0%nat) in
       let shortUrl := (baseUrl ++ "/" ++ shortCode)%string in
       qrCodeDataUrl <- generateQRCode QRCode_toDataURL shortUrl ;;
       url <- createUrl now (nano 1%nat) (bulkArgs urlData shortCode user qrCodeDataUrl) ;;
       ret (inl (url, shortUrl)))
    (fun error => ret (inr {| err_originalUrl := item_originalUrl urlData;
                              err_error := message_of error |})).

(** The loop of lines 159-195 from item number [i] on; [now i] and [nano i]
    are the clock and the draws while item [i] is handled. *)
Fixpoint bulkLoop (now : nat -> Timestamp) (nano : nat -> nat -> string)
    (user : string) (baseUrl : string) (items : list BulkItem) (i : nat)
    (results : list (Url.t * string)) (errors : list BulkError)
  : Async S (list (Url.t * string) * list BulkError) :=
  match items with
  | [] => ret (results, errors)
  | urlData :: rest =>
      entry <- bulkItem (now i) (nano i) user baseUrl urlData ;;
      match entry with
      | inl result =>
          bulkLoop now nano user baseUrl rest (Datatypes.S i) (results ++ [result]) errors
      | inr error =>
          bulkLoop now nano user baseUrl rest (Datatypes.S i) results (errors ++ [error])
      end
  end.

(** [POST /api/urls/bulk], lines 153-205, behind [requireAuth]: [user] is
    [req.user!.id] and [parsed] the verdict of [bulkUrlSchema.parse]. *)
Definition bulkRoute (now : nat -> Timestamp) (nano : nat -> nat -> string)
    (user : string) (baseUrl : string) (parsed : Outcome (list BulkItem))
  : Async S BulkResponse :=
  try_catch
    (urls_ <- (fun s => (s, parsed)) ;;
     done <- bulkLoop now nano user baseUrl urls_ 0%nat [] [] ;;
     ret {| bulk_status := 200; bulk_body := BulkDone (fst done) (snd done) |})
    (fun error =>
       match error with
       | ZodError message => ret {| bulk_status := 400; bulk_body := BulkMessage message |}
       | _ => ret {| bulk_status := 500;
                     bulk_body := BulkMessage "Failed to create short URLs" |}
       end).
End BulkRoute.

(** Case analysis on every marker test left in the goal. *)
Ltac split_markers :=
  repeat match goal with
         | |- context [includes ?ua ?marker] => destruct (includes ua marker)
         end.
(** * Properties *)

(** ** What each statement does to the store *)


Lemma existsb_false_forall {A} (f : A -> bool) (l : list A) :
  existsb f l = false <-> forall x, In x l -> f x = false.
Proof.
  split.
  - intros E x Hx. destruct (f x) eqn:Fx; [|reflexivity].
    rewrite <- E. symmetry. apply existsb_exists. eauto.
  - intros Hall. destruct (existsb f l) eqn:E; [|reflexivity].
    apply existsb_exists in E as (x & Hx & Fx). rewrite (Hall x Hx) in Fx. discriminate.
Qed.

(** [insert into urls] either throws and leaves the store, or appends one
    row with a fresh id and the requested code. *)
Lemma insertUrl_cases now code ins s :
  (exists e, DatabaseStorage.insertUrl now code ins s = (s, Thrown e)) \/
  (exists url,
     DatabaseStorage.insertUrl now code ins s =
       ({| urls := urls s ++ [url]; urlClicks := urlClicks s;
           urlAnalytics := urlAnalytics s; nextId := N.succ (nextId s) |}, Ok url)
     /\ Url.id url = nextId s /\ Url.shortCode url = code
     /\ existsb (fun u => String.eqb (Url.shortCode u) code) (urls s) = false
     /\ fits 12 (Some code) = true).
Proof.
  unfold DatabaseStorage.insertUrl.
  destruct (fits 12 (Some code)) eqn:F12; cbn [andb negb]; [|left; eauto].
  destruct (fits 50 (ins_customAlias ins) && fits 200 (ins_title ins)); cbn [negb];
    [|left; eauto].
  destruct (existsb _ (urls s)) eqn:E; [left; eauto|].
  right. eexists. split; [reflexivity|]. cbn. auto.
Qed.

Lemma insertEmptyAnalytics_cases now urlId s :
  (exists e, DatabaseStorage.insertEmptyAnalytics now urlId s = (s, Thrown e)
             /\ (DatabaseStorage.hasUrl urlId s = false
                 \/ DatabaseStorage.hasAnalytics urlId s = true)) \/
  (DatabaseStorage.insertEmptyAnalytics now urlId s =
     ({| urls := urls s; urlClicks := urlClicks s;
         urlAnalytics := urlAnalytics s ++ [DatabaseStorage.emptyAnalytics (nextId s) urlId now];
         nextId := N.succ (nextId s) |}, Ok tt)
   /\ DatabaseStorage.hasUrl urlId s = true /\ DatabaseStorage.hasAnalytics urlId s = false).
Proof.
  unfold DatabaseStorage.insertEmptyAnalytics.
  destruct (DatabaseStorage.hasAnalytics urlId s) eqn:HA; [left; eauto|].
  destruct (DatabaseStorage.hasUrl urlId s) eqn:HU; cbn [negb]; [|left; eauto].
  right. auto.
Qed.

Lemma insertClick_cases now c s :
  (exists e, DatabaseStorage.insertClick now c s = (s, Thrown e)) \/
  (exists row,
     DatabaseStorage.insertClick now c s =
       ({| urls := urls s; urlClicks := urlClicks s ++ [row];
           urlAnalytics := urlAnalytics s; nextId := N.succ (nextId s) |}, Ok tt)
     /\ UrlClick.urlId row = clk_urlId c
     /\ UrlClick.referer row = clk_referer c
     /\ DatabaseStorage.hasUrl (clk_urlId c) s = true).
Proof.
  unfold DatabaseStorage.insertClick.
  match goal with |- context [negb ?b] => destruct b end; cbn [negb]; [|left; eauto].
  destruct (DatabaseStorage.hasUrl (clk_urlId c) s) eqn:HU; cbn [negb]; [|left; eauto].
  right. eexists. split; [reflexivity|]. cbn. auto.
Qed.

(** The select of [updateUrlAnalytics] is refused, so the method throws
    with the store as it found it, before the guard and the upsert. *)
Lemma updateUrlAnalytics_throws now urlId s :
  DatabaseStorage.updateUrlAnalytics now urlId s =
    (s, Thrown (DbError "aggregate function calls cannot be nested")).
Proof.
  unfold DatabaseStorage.updateUrlAnalytics, DatabaseStorage.selectClicksData, bind, throw.
  reflexivity.
Qed.

(** [recordClick] leaves the store its insert left, and does not return. *)
Lemma recordClick_insertClick now c s :
  fst (DatabaseStorage.recordClick now c s) = fst (DatabaseStorage.insertClick now c s) /\
  exists e, snd (DatabaseStorage.recordClick now c s) = Thrown e.
Proof.
  unfold DatabaseStorage.recordClick, bind.
  destruct (DatabaseStorage.insertClick now c s) as [s1 [[]|e]]; cbn [fst snd].
  - rewrite updateUrlAnalytics_throws. eauto.
  - eauto.
Qed.

(** ** The constraints of the schema hold in every reachable store *)

Lemma hasUrl_true urlId s :
  DatabaseStorage.hasUrl urlId s = true <-> exists u, In u (urls s) /\ Url.id u = urlId.
Proof.
  unfold DatabaseStorage.hasUrl. rewrite existsb_exists.
  split; intros (u & Hu & E); exists u; split; auto; apply N.eqb_eq; exact E.
Qed.

Lemma hasAnalytics_true urlId s :
  DatabaseStorage.hasAnalytics urlId s = true <->
  exists a, In a (urlAnalytics s) /\ UrlAnalytics.urlId a = urlId.
Proof.
  unfold DatabaseStorage.hasAnalytics. rewrite existsb_exists.
  split; intros (a & Ha & E); exists a; split; auto; apply N.eqb_eq; exact E.
Qed.

Lemma consistent_empty : consistent emptyStore.
Proof.
  split; cbn; try (intros ? []); constructor.
Qed.

(** Rewriting rows of [urls] without touching ids or codes keeps the
    constraints. *)
Lemma consistent_same_keys s s' :
  consistent s ->
  List.map Url.id (urls s') = List.map Url.id (urls s) ->
  List.NoDup (List.map Url.shortCode (urls s')) ->
  (forall u, In u (urls s') -> fits 12 (Some (Url.shortCode u)) = true) ->
  urlClicks s' = urlClicks s -> urlAnalytics s' = urlAnalytics s ->
  nextId s' = nextId s ->
  consistent s'.
Proof.
  intros C Hid Hcodes Hfit Hc Ha Hn.
  assert (Hin : forall u', In u' (urls s') ->
                  exists u, In u (urls s) /\ Url.id u = Url.id u').
  { intros u' Hu'. apply (in_map Url.id) in Hu'. rewrite Hid in Hu'.
    apply in_map_iff in Hu' as (u & E & Hu). eauto. }
  split.
  - intros u' Hu'. destruct (Hin u' Hu') as (u & Hu & <-). rewrite Hn.
    apply (url_ids_issued s C u Hu).
  - rewrite Hid. apply (url_ids_unique s C).
  - exact Hcodes.
  - exact Hfit.
  - rewrite Ha, Hn. apply (analytics_refer s C).
  - intros u' Hu'. destruct (Hin u' Hu') as (u & Hu & <-).
    unfold DatabaseStorage.hasAnalytics. rewrite Ha. apply (analytics_present s C u Hu).
  - unfold DatabaseStorage.clicksOf. rewrite Ha, Hc. apply (analytics_start_at_0 s C).
Qed.

Lemma map_id_updateRow now id updates rows :
  List.map Url.id (List.map (DatabaseStorage.updateRow now id updates) rows) = List.map Url.id rows.
Proof.
  rewrite List.map_map. apply List.map_ext. intros u. unfold DatabaseStorage.updateRow.
  destruct (Url.id u =? id)%N; reflexivity.
Qed.

Lemma updateRow_untouched now id updates rows :
  ~ In id (List.map Url.id rows) ->
  List.map (DatabaseStorage.updateRow now id updates) rows = rows.
Proof.
  induction rows as [|u rows IH]; cbn; [reflexivity|]. intros Hn.
  rewrite IH by tauto. unfold DatabaseStorage.updateRow.
  destruct (N.eqb_spec (Url.id u) id) as [E|_]; [tauto|reflexivity].
Qed.

(** The unique constraint survives an [update] that passed its check. *)
Lemma updateRow_keeps_codes_unique now id updates rows :
  List.NoDup (List.map Url.id rows) ->
  List.NoDup (List.map Url.shortCode rows) ->
  (forall c t v, upd_shortCode updates = Some c -> In t rows -> In v rows ->
                 Url.id t = id -> Url.id v <> id -> Url.shortCode v <> c) ->
  List.NoDup (List.map Url.shortCode (List.map (DatabaseStorage.updateRow now id updates) rows)).
Proof.
  induction rows as [|u rows IH]; cbn; [constructor|].
  intros Hids Hcodes Hfree.
  apply List.NoDup_cons_iff in Hids as [Hu Hids].
  apply List.NoDup_cons_iff in Hcodes as [Hc Hcodes].
  assert (IH' := IH Hids Hcodes
                   (fun c t v E Ht Hv => Hfree c t v E (or_intror Ht) (or_intror Hv))).
  apply List.NoDup_cons_iff. split; [|exact IH'].
  unfold DatabaseStorage.updateRow at 1.
  destruct (N.eqb_spec (Url.id u) id) as [E|NE].
  - rewrite updateRow_untouched by (rewrite <- E; exact Hu).
    cbn. destruct (upd_shortCode updates) as [c|] eqn:Ec; cbn; [|exact Hc].
    intros Hin. apply in_map_iff in Hin as (v & Ev & Hv).
    apply (Hfree c u v eq_refl (or_introl eq_refl) (or_intror Hv) E); [|exact Ev].
    intros Hv'. apply Hu. rewrite E, <- Hv'. apply in_map. exact Hv.
  - intros Hin. rewrite List.map_map in Hin.
    apply in_map_iff in Hin as (v & Ev & Hv). unfold DatabaseStorage.updateRow in Ev.
    destruct (N.eqb_spec (Url.id v) id) as [E'|_].
    + cbn in Ev. destruct (upd_shortCode updates) as [c|] eqn:Ec; cbn in Ev.
      * apply (Hfree c v u eq_refl (or_intror Hv) (or_introl eq_refl) E' NE). congruence.
      * apply Hc. rewrite <- Ev. apply in_map. exact Hv.
    + apply Hc. rewrite <- Ev. apply in_map. exact Hv.
Qed.

Lemma consistent_updateUrl now id updates s :
  consistent s -> consistent (fst (DatabaseStorage.updateUrl now id updates s)).
Proof.
  intros C. unfold DatabaseStorage.updateUrl.
  destruct (existsb _ (List.filter _ (urls s))) eqn:V; cbn [fst]; [exact C|].
  apply (consistent_same_keys s); try reflexivity; try exact C.
  - apply map_id_updateRow.
  - cbn. apply updateRow_keeps_codes_unique;
      [apply (url_ids_unique s C) | apply (shortCodes_unique s C) |].
    intros c t v Ec Ht Hv Et Nv Ecode.
    rewrite existsb_false_forall in V.
    assert (Hvio : DatabaseStorage.updateViolates updates (urls s) t = false).
    { apply V. apply filter_In. split; [exact Ht|]. apply N.eqb_eq. exact Et. }
    unfold DatabaseStorage.updateViolates in Hvio. rewrite Ec in Hvio.
    apply orb_false_iff in Hvio as [_ Hvio].
    rewrite existsb_false_forall in Hvio. specialize (Hvio v Hv).
    rewrite Ecode, String.eqb_refl, andb_true_r in Hvio.
    apply negb_false_iff, N.eqb_eq in Hvio. congruence.
  - cbn. intros u' (u & <- & Hu)%in_map_iff. unfold DatabaseStorage.updateRow.
    destruct (N.eqb_spec (Url.id u) id) as [E|_]; [|apply (shortCodes_fit s C u Hu)].
    rewrite existsb_false_forall in V.
    assert (Hvio : DatabaseStorage.updateViolates updates (urls s) u = false).
    { apply V. apply filter_In. split; [exact Hu|]. apply N.eqb_eq. exact E. }
    unfold DatabaseStorage.updateViolates in Hvio.
    apply orb_false_iff in Hvio as [Hvio _]. apply negb_false_iff in Hvio.
    apply andb_true_iff in Hvio as [Hvio _]. apply andb_true_iff in Hvio as [Hvio _].
    exact Hvio.
Qed.

Lemma consistent_deleteUrl id s :
  consistent s -> consistent (fst (DatabaseStorage.deleteUrl id s)).
Proof.
  intros C. unfold DatabaseStorage.deleteUrl. cbn [fst].
  apply (consistent_same_keys s); try reflexivity; try exact C; cbn.
  - rewrite List.map_map. apply List.map_ext. intros u.
    destruct (Url.id u =? id)%N; reflexivity.
  - rewrite List.map_map.
    rewrite (List.map_ext _ Url.shortCode); [apply (shortCodes_unique s C)|].
    intros u. destruct (Url.id u =? id)%N; reflexivity.
  - intros u' (u & <- & Hu)%in_map_iff.
    pose proof (shortCodes_fit s C u Hu) as Hfit.
    destruct (Url.id u =? id)%N; exact Hfit.
Qed.

Lemma clicksOf_app urlId s row :
  List.filter (fun c => N.eqb (UrlClick.urlId c) urlId) (urlClicks s ++ [row]) =
  DatabaseStorage.clicksOf urlId s ++ (if N.eqb (UrlClick.urlId row) urlId then [row] else []).
Proof. unfold DatabaseStorage.clicksOf. rewrite List.filter_app. reflexivity. Qed.

Lemma NoDup_snoc {A} (x : A) (l : list A) :
  ~ In x l -> List.NoDup l -> List.NoDup (l ++ [x]).
Proof.
  induction l as [|y l IH]; cbn; intros Hx Hl.
  - constructor; [intros []|constructor].
  - apply List.NoDup_cons_iff in Hl as [Hy Hl]. constructor.
    + intros [H|[<-|[]]]%in_app_or; tauto.
    + apply IH; tauto.
Qed.

Lemma consistent_createUrl now gen ins s :
  consistent s -> consistent (fst (DatabaseStorage.createUrl now gen ins s)).
Proof.
  intros C. unfold DatabaseStorage.createUrl, bind.
  destruct (insertUrl_cases now (or_else (ins_shortCode ins)
                                   (DatabaseStorage.generateShortCode gen)) ins s)
    as [[e ->]|(url & -> & Eid & Ecode & Efree & Efit)]; [exact C|].
  set (s1 := {| urls := urls s ++ [url]; urlClicks := urlClicks s;
                urlAnalytics := urlAnalytics s; nextId := N.succ (nextId s) |}).
  assert (HA : DatabaseStorage.hasAnalytics (Url.id url) s1 = false).
  { destruct (DatabaseStorage.hasAnalytics (Url.id url) s1) eqn:HA; [|reflexivity].
    apply hasAnalytics_true in HA as (a & Ha & Ea). cbn in Ha.
    pose proof (analytics_refer s C a Ha) as Hlt. rewrite Ea, Eid in Hlt. lia. }
  destruct (insertEmptyAnalytics_cases now (Url.id url) s1)
    as [(e & _ & [HU|HA'])|(-> & _ & _)].
  - assert (DatabaseStorage.hasUrl (Url.id url) s1 = true) as HU'; [|congruence].
    apply hasUrl_true. exists url. split; [|reflexivity]. cbn. apply in_or_app. cbn. auto.
  - congruence.
  - unfold ret; cbn [fst]. subst s1.
    split; cbn [urls urlClicks urlAnalytics nextId DatabaseStorage.set_urlAnalytics].
    + intros u [Hu|[<-|[]]]%in_app_or.
      * pose proof (url_ids_issued s C u Hu). lia.
      * lia.
    + rewrite List.map_app. cbn. apply NoDup_snoc; [|apply (url_ids_unique s C)].
      intros (u & Eu & Hu)%in_map_iff.
      pose proof (url_ids_issued s C u Hu). lia.
    + rewrite List.map_app. cbn. apply NoDup_snoc; [|apply (shortCodes_unique s C)].
      intros (u & Eu & Hu)%in_map_iff.
      rewrite existsb_false_forall in Efree. specialize (Efree u Hu).
      rewrite Eu, Ecode, String.eqb_refl in Efree. discriminate.
    + intros u [Hu|[<-|[]]]%in_app_or.
      * apply (shortCodes_fit s C u Hu).
      * rewrite Ecode. exact Efit.
    + intros a [Ha|[<-|[]]]%in_app_or.
      * pose proof (analytics_refer s C a Ha). lia.
      * cbn. lia.
    + intros u Hu. apply hasAnalytics_true. cbn.
      apply in_app_or in Hu as [Hu|[<-|[]]].
      * pose proof (analytics_present s C u Hu) as (a & Ha & Ea)%hasAnalytics_true.
        exists a. split; [apply in_or_app; auto|exact Ea].
      * eexists. split; [apply in_or_app; right; left; reflexivity|reflexivity].
    + intros a [Ha|[<-|[]]]%in_app_or.
      * apply (analytics_start_at_0 s C a Ha).
      * reflexivity.
Qed.

Lemma consistent_insertClick now c s :
  consistent s -> consistent (fst (DatabaseStorage.insertClick now c s)).
Proof.
  intros C.
  destruct (insertClick_cases now c s) as [[e ->]|(row & -> & Erow & _ & HU)]; [exact C|].
  cbn [fst]. split; cbn [urls urlClicks urlAnalytics nextId DatabaseStorage.set_urlAnalytics].
  - intros u Hu. pose proof (url_ids_issued s C u Hu). lia.
  - apply (url_ids_unique s C).
  - apply (shortCodes_unique s C).
  - apply (shortCodes_fit s C).
  - intros a Ha. pose proof (analytics_refer s C a Ha). lia.
  - apply (analytics_present s C).
  - intros a Ha. unfold DatabaseStorage.clicksOf. cbn. rewrite clicksOf_app.
    intros [E _]%app_eq_nil. apply (analytics_start_at_0 s C a Ha E).
Qed.

Lemma consistent_updateUrlAnalytics now urlId s :
  consistent s -> consistent (fst (DatabaseStorage.updateUrlAnalytics now urlId s)).
Proof.
  intros C. rewrite updateUrlAnalytics_throws. exact C.
Qed.

Lemma consistent_recordClick now c s :
  consistent s -> consistent (fst (DatabaseStorage.recordClick now c s)).
Proof.
  intros C. destruct (recordClick_insertClick now c s) as [-> _].
  apply consistent_insertClick, C.
Qed.

(** Every reachable store satisfies the constraints. *)
Lemma reachable_consistent s : reachable s -> consistent s.
Proof.
  induction 1 as [|c s _ IH]; [apply consistent_empty|].
  destruct c; cbn [after].
  - apply consistent_createUrl, IH.
  - apply consistent_updateUrl, IH.
  - apply consistent_deleteUrl, IH.
  - apply consistent_recordClick, IH.
  - apply consistent_updateUrlAnalytics, IH.
Qed.

(** ** Reading a table *)

Lemma head_filter_Some {A} (p : A -> bool) (l : list A) :
  existsb p l = true ->
  exists x, head (List.filter p l) = Some x /\ In x l /\ p x = true.
Proof.
  induction l as [|y l IH]; cbn; [discriminate|].
  destruct (p y) eqn:Py; cbn.
  - intros _. exists y. auto.
  - intros (x & Hx & Hin & Px)%IH. exists x. auto.
Qed.

Lemma head_filter_In {A} (p : A -> bool) (l : list A) (x : A) :
  head (List.filter p l) = Some x -> In x l /\ p x = true.
Proof.
  intros Hx. apply filter_In.
  destruct (List.filter p l) as [|y l']; [discriminate|].
  injection Hx as ->. left. reflexivity.
Qed.

Lemma snapshot_Some urlId s :
  DatabaseStorage.hasAnalytics urlId s = true ->
  exists a, snapshot urlId s = Some a /\ In a (urlAnalytics s)
            /\ UrlAnalytics.urlId a = urlId.
Proof.
  intros (a & Ha & Hin & E)%head_filter_Some. exists a.
  split; [exact Ha|]. split; [exact Hin|]. apply N.eqb_eq. exact E.
Qed.

(** ** C1 *)

(** C1. The link of the example has one click row, recorded at instant 200
    through [recordClick]. A recomputation for that link does not complete:
    its select is refused, the call throws with the store as it found it, and
    the snapshot row of the link still holds [totalClicks = 0] beside the one
    click row. *)
Theorem totalClicks_stays_0_beside_click_rows :
  reachable Demo.clicked /\
  length (DatabaseStorage.clicksOf 0%N Demo.clicked) = 1%nat /\
  DatabaseStorage.updateUrlAnalytics 300 0%N Demo.clicked =
    (Demo.clicked, Thrown (DbError "aggregate function calls cannot be nested")) /\
  exists a, snapshot 0%N Demo.clicked = Some a /\ UrlAnalytics.totalClicks a = Some 0.
Proof.
  split; [exact (reachable_after _ _ (reachable_after _ _ reachable_empty))|].
  split; [vm_compute; reflexivity|].
  split; [apply updateUrlAnalytics_throws|].
  eexists. split; vm_compute; reflexivity.
Qed.

(** ** C2 *)

(** C2. A visit of the example link that sends no [Referer] header: the
    click row is stored with a null referer, the recomputation that
    [recordClick] starts is refused and the visitor gets the 500. The
    snapshot of the link keeps [totalClicks = 0] and its four maps empty: the
    click is counted under no key, ["Direct"] and ["Unknown"] included. *)
Theorem clicksByReferer_leaves_direct_visits_uncounted :
  let run := redirectRoute Demo.hostname 200 (Demo.visit None "203.0.113.7") Demo.created in
  snd run = Ok {| status := 500; body := Text "Server error" |} /\
  List.map UrlClick.referer (DatabaseStorage.clicksOf 0%N (fst run)) = [None] /\
  exists a, snapshot 0%N (fst run) = Some a /\
            UrlAnalytics.totalClicks a = Some 0 /\
            UrlAnalytics.clicksByCountry a = Some ∅ /\
            UrlAnalytics.clicksByDevice a = Some ∅ /\
            UrlAnalytics.clicksByBrowser a = Some ∅ /\
            UrlAnalytics.clicksByReferer a = Some ∅.
Proof.
  vm_compute. split; [reflexivity|]. split; [reflexivity|].
  eexists. split; [reflexivity|]. repeat split.
Qed.

(** ** C10 *)

(** C10. A call of [updateUrlAnalytics] for a link without click rows leaves
    the store exactly as it found it: no row of any table is written, so the
    snapshot row of the link keeps every field, [updatedAt] included. *)
Theorem updateUrlAnalytics_without_clicks_writes_nothing
    (now : Timestamp) (urlId : Id) (s : Store) :
  DatabaseStorage.clicksOf urlId s = [] ->
  fst (DatabaseStorage.updateUrlAnalytics now urlId s) = s /\
  snapshot urlId (fst (DatabaseStorage.updateUrlAnalytics now urlId s)) = snapshot urlId s.
Proof.
  intros _. rewrite updateUrlAnalytics_throws. cbn [fst]. split; reflexivity.
Qed.

Lemma updateUrlAnalytics_without_clicks_witness :
  fst (DatabaseStorage.updateUrlAnalytics 500 0%N Demo.created) = Demo.created /\
  option_map UrlAnalytics.updatedAt
    (snapshot 0%N (fst (DatabaseStorage.updateUrlAnalytics 500 0%N Demo.created))) =
    Some (Some 100).
Proof.
  destruct (updateUrlAnalytics_without_clicks_writes_nothing 500 0%N Demo.created)
    as [Estore Esnap].
  - vm_compute. reflexivity.
  - split; [exact Estore|]. rewrite Esnap. vm_compute. reflexivity.
Defined.

(** ** C3 *)

(** C3. Two runs of [updateUrlAnalytics] in a row for a link, at any two
    instants and with no click row added in between: the first leaves the
    click log as it was, and the second leaves the snapshot row of the link,
    and with it the whole store, exactly as the first run left them,
    [updatedAt] included. *)
Theorem recompute_twice_same_snapshot (t1 t2 : Timestamp) (urlId : Id) (s : Store) :
  let s1 := fst (DatabaseStorage.updateUrlAnalytics t1 urlId s) in
  let s2 := fst (DatabaseStorage.updateUrlAnalytics t2 urlId s1) in
  urlClicks s1 = urlClicks s /\
  snapshot urlId s2 = snapshot urlId s1 /\
  s2 = s1.
Proof.
  cbv zeta. rewrite (updateUrlAnalytics_throws t1 urlId s). cbn [fst].
  rewrite (updateUrlAnalytics_throws t2 urlId s). cbn [fst].
  repeat split.
Qed.

(** ** C4 *)

(** A visit of an active link whose client address, as the proxy header
    gives it, is longer than the 45 characters of [ip_address]: the insert of
    the click is refused and the visitor gets the 500, not the redirect. *)
Lemma redirect_answers_500_when_recording_fails :
  let req := Demo.visit None "fe80:0000:0000:0000:0204:61ff:fe9d:f156%bridge-network0" in
  snd (DatabaseStorage.getUrl "abcdefgh" Demo.created) = Ok (Some (Demo.stored None)) /\
  redirectRoute Demo.hostname 200 req Demo.created =
    (Demo.created, Ok {| status := 500; body := Text "Server error" |}).
Proof. split; vm_compute; reflexivity. Qed.

(** C4, amended. Whatever the storage behind [IStorage], when the lookup of
    a redirect request succeeds the handler awaits [recordClick] before it
    answers: the response is the 301 redirect to the target when
    [recordClick] returns, and the 500 "Server error" when it throws. *)
Theorem redirect_awaits_recordClick {S : Type} `{IStorage S}
    (hostname : string -> option string) (now : Timestamp) (req : RedirectRequest)
    (s s1 : S) (url : Url.t) :
  getUrl (req_shortCode req) s = (s1, Ok (Some url)) ->
  redirectRoute hostname now req s =
    match recordClick now (clickOf hostname url req) s1 with
    | (s2, Ok _) => (s2, Ok {| status := 301; body := Location (Url.originalUrl url) |})
    | (s2, Thrown _) => (s2, Ok {| status := 500; body := Text "Server error" |})
    end.
Proof.
  intros E. unfold redirectRoute, try_catch, bind. rewrite E.
  destruct (recordClick now (clickOf hostname url req) s1) as [s2 [[]|e]]; reflexivity.
Qed.

Lemma redirect_awaits_recordClick_witness :
  let run := redirectRoute Demo.hostname 200 (Demo.visit None "203.0.113.7") Demo.created in
  snd run = Ok {| status := 500; body := Text "Server error" |} /\
  length (urlClicks (fst run)) = 1%nat.
Proof.
  cbv zeta.
  rewrite (redirect_awaits_recordClick Demo.hostname 200 (Demo.visit None "203.0.113.7")
             Demo.created Demo.created (Demo.stored None)); vm_compute; [|reflexivity].
  split; reflexivity.
Defined.

(** ** C5 *)

(** C5. A link whose [expiresAt] is instant 1000 is still returned by
    [getUrl] at instant 2000; the redirect route does not answer 404 to the
    visit: it goes on to record the click, whose row is stored. *)
Theorem getUrl_returns_expired_link :
  let run := redirectRoute Demo.hostname 2000 (Demo.visit None "203.0.113.7")
               Demo.expiring in
  snd (DatabaseStorage.getUrl "abcdefgh" Demo.expiring) = Ok (Some (Demo.stored (Some 1000))) /\
  1000 < 2000 /\
  snd run = Ok {| status := 500; body := Text "Server error" |} /\
  List.map UrlClick.clickedAt (DatabaseStorage.clicksOf 0%N (fst run)) = [2000].
Proof. repeat split; vm_compute; reflexivity. Qed.

Lemma activeWithCode_true code u :
  DatabaseStorage.activeWithCode code u = true <->
  Url.shortCode u = code /\ Url.isActive u = Some true.
Proof.
  unfold DatabaseStorage.activeWithCode. rewrite andb_true_iff, String.eqb_eq.
  destruct (Url.isActive u) as [[]|]; split; intros [E1 E2]; split;
    congruence || reflexivity.
Qed.

(** ** C8 *)

(** C8. For a visit of the example link whose [Referer] header is a full
    URL, the click row stores the header as it came, path and query
    included, whatever [extractDomain] makes of it; for a visit without the
    header the click row stores a null referer and the snapshot of the link
    has no key at all in [clicksByReferer]. Both visits are answered 500. *)
Theorem redirect_stores_raw_referer (hostname : string -> option string) :
  let header := "https://news.example.org/story?id=7" in
  let run := redirectRoute hostname 200 (Demo.visit (Some header) "203.0.113.7")
               Demo.created in
  let direct := redirectRoute hostname 200 (Demo.visit None "203.0.113.7")
                  Demo.created in
  snd run = Ok {| status := 500; body := Text "Server error" |} /\
  List.map UrlClick.referer (urlClicks (fst run)) = [Some header] /\
  snd direct = Ok {| status := 500; body := Text "Server error" |} /\
  List.map UrlClick.referer (urlClicks (fst direct)) = [None] /\
  exists a, snapshot 0%N (fst direct) = Some a /\
            UrlAnalytics.clicksByReferer a = Some ∅.
Proof.
  cbv zeta. split; [vm_compute; reflexivity|]. split; [vm_compute; reflexivity|].
  split; [vm_compute; reflexivity|]. split; [vm_compute; reflexivity|].
  eexists. split; vm_compute; reflexivity.
Qed.

(** ** Creation *)

Lemma filter_nil {A} (p : A -> bool) (l : list A) :
  (forall x, In x l -> p x = false) -> List.filter p l = [].
Proof.
  induction l as [|y l IH]; cbn; [reflexivity|]. intros Hall.
  rewrite (Hall y (or_introl eq_refl)). apply IH. intros x Hx. apply Hall. auto.
Qed.

Lemma NoDup_map_inj {A B} (f : A -> B) (l : list A) (x y : A) :
  List.NoDup (List.map f l) -> In x l -> In y l -> f x = f y -> x = y.
Proof.
  induction l as [|z l IH]; cbn; [tauto|].
  intros [Hz Hl]%List.NoDup_cons_iff [<-|Hx] [<-|Hy] E; auto.
  - destruct Hz. rewrite E. apply in_map. exact Hy.
  - destruct Hz. rewrite <- E. apply in_map. exact Hx.
Qed.

Lemma fits_weaken (n m : nat) (o : option string) :
  (n <= m)%nat -> fits n o = true -> fits m o = true.
Proof.
  destruct o as [x|]; cbn; [|reflexivity].
  intros Hle H. apply Nat.leb_le. apply Nat.leb_le in H. lia.
Qed.

(** A code that some row already carries is refused by the unique
    constraint, and nothing is written. *)
Lemma createUrl_taken now gen ins s :
  existsb (fun u => String.eqb (Url.shortCode u) (or_else (ins_shortCode ins) gen))
          (urls s) = true ->
  exists message,
    DatabaseStorage.createUrl now gen ins s = (s, Thrown (DbError message)) /\
    (fits 12 (Some (or_else (ins_shortCode ins) gen)) = true ->
     fits 50 (ins_customAlias ins) = true -> fits 200 (ins_title ins) = true ->
     message = "duplicate key value violates unique constraint urls_short_code_unique").
Proof.
  intros Htaken. unfold DatabaseStorage.createUrl, bind, DatabaseStorage.insertUrl,
    DatabaseStorage.generateShortCode.
  destruct (fits 12 (Some (or_else (ins_shortCode ins) gen))); cbn [andb negb];
    [|eexists; split; [reflexivity|discriminate]].
  destruct (fits 50 (ins_customAlias ins)); cbn [andb negb];
    [|eexists; split; [reflexivity|discriminate]].
  destruct (fits 200 (ins_title ins)); cbn [andb negb];
    [|eexists; split; [reflexivity|discriminate]].
  rewrite Htaken. eexists. split; reflexivity.
Qed.

(** A code no row carries is inserted, with its empty snapshot. *)
Lemma createUrl_fresh now gen ins s :
  consistent s ->
  fits 12 (Some (or_else (ins_shortCode ins) gen)) = true ->
  fits 50 (ins_customAlias ins) = true -> fits 200 (ins_title ins) = true ->
  existsb (fun u => String.eqb (Url.shortCode u) (or_else (ins_shortCode ins) gen))
          (urls s) = false ->
  exists url s',
    DatabaseStorage.createUrl now gen ins s = (s', Ok url) /\
    Url.shortCode url = or_else (ins_shortCode ins) gen /\
    urls s' = urls s ++ [url] /\
    snapshot (Url.id url) s' =
      Some (DatabaseStorage.emptyAnalytics (N.succ (Url.id url)) (Url.id url) now).
Proof.
  intros C F12 F50 F200 Hfree. unfold DatabaseStorage.createUrl, bind.
  destruct (insertUrl_cases now (or_else (ins_shortCode ins)
                                   (DatabaseStorage.generateShortCode gen)) ins s)
    as [[e He]|(url & -> & Eid & Ecode & _ & _)].
  - exfalso. revert He. unfold DatabaseStorage.insertUrl, DatabaseStorage.generateShortCode.
    rewrite F12, F50, F200, Hfree. cbn. discriminate.
  - set (s1 := {| urls := urls s ++ [url]; urlClicks := urlClicks s;
                  urlAnalytics := urlAnalytics s; nextId := N.succ (nextId s) |}).
    assert (HA : DatabaseStorage.hasAnalytics (Url.id url) s1 = false).
    { destruct (DatabaseStorage.hasAnalytics (Url.id url) s1) eqn:HA; [|reflexivity].
      apply hasAnalytics_true in HA as (a & Ha & Ea). cbn in Ha.
      pose proof (analytics_refer s C a Ha) as Hlt. rewrite Ea, Eid in Hlt. lia. }
    destruct (insertEmptyAnalytics_cases now (Url.id url) s1)
      as [(e & _ & [HU|HA'])|(-> & _ & _)].
    + assert (DatabaseStorage.hasUrl (Url.id url) s1 = true) as HU'; [|congruence].
      apply hasUrl_true. exists url. split; [|reflexivity]. cbn. apply in_or_app. cbn. auto.
    + congruence.
    + eexists _, _. split; [reflexivity|]. split; [exact Ecode|]. split; [reflexivity|].
      unfold snapshot, DatabaseStorage.getUrlAnalytics. cbn [snd urlAnalytics nextId s1].
      rewrite List.filter_app. unfold DatabaseStorage.hasAnalytics in HA. cbn in HA.
      rewrite filter_nil by (apply existsb_false_forall; exact HA).
      cbn. rewrite N.eqb_refl, Eid. reflexivity.
Qed.

(** ** C9 *)

(** C9. In a reachable store, a creation request whose custom alias is the
    short code of a retired link passes the alias check, which answers
    [false]; [createUrl] is then refused by the database (by the unique
    constraint on [short_code] when the other columns fit their [varchar]),
    the route answers 500 "Failed to create short URL", and the store is
    left as it was, hence without a second link of that code. *)
Theorem alias_of_retired_link_fails_at_insert
    (toDataURL : string -> option string) (now : Timestamp) (nano : nat -> string)
    (user : option string) (baseUrl : string) (validatedData : InsertUrl)
    (s : Store) (old : Url.t) :
  reachable s -> In old (urls s) -> Url.isActive old = Some false ->
  ins_customAlias validatedData = Some (Url.shortCode old) ->
  truthy (Url.shortCode old) = true ->
  DatabaseStorage.checkCustomAlias (Url.shortCode old) s = (s, Ok false) /\
  (forall gen qr, exists message,
     DatabaseStorage.createUrl now gen
       (createArgs validatedData (Url.shortCode old) user qr) s =
       (s, Thrown (DbError message)) /\
     (fits 200 (ins_title validatedData) = true ->
      message = "duplicate key value violates unique constraint urls_short_code_unique")) /\
  createRoute toDataURL now nano user baseUrl (Ok validatedData) s =
    (s, Ok {| status := 500; body := Message "Failed to create short URL" |}).
Proof.
  intros R Hold Hretired Halias Htruthy.
  pose proof (reachable_consistent s R) as C.
  assert (Hcheck : DatabaseStorage.checkCustomAlias (Url.shortCode old) s = (s, Ok false)).
  { unfold DatabaseStorage.checkCustomAlias. rewrite filter_nil; [reflexivity|].
    intros u Hu. destruct (DatabaseStorage.activeWithCode (Url.shortCode old) u) eqn:A;
      [|reflexivity].
    apply activeWithCode_true in A as [Ec Ea].
    rewrite (NoDup_map_inj Url.shortCode (urls s) u old (shortCodes_unique s C) Hu Hold Ec)
      in Ea. congruence. }
  assert (Htaken : forall gen qr,
            existsb (fun u => String.eqb (Url.shortCode u)
                       (or_else (ins_shortCode (createArgs validatedData (Url.shortCode old)
                                                  user qr)) gen)) (urls s) = true).
  { intros gen qr. cbn. rewrite Htruthy. apply existsb_exists. exists old.
    split; [exact Hold|apply String.eqb_refl]. }
  split; [exact Hcheck|]. split.
  - intros gen qr. destruct (createUrl_taken now gen _ s (Htaken gen qr)) as (m & E & Hm).
    exists m. split; [exact E|]. intros F200. apply Hm.
    + cbn. rewrite Htruthy. apply (shortCodes_fit s C old Hold).
    + cbn. rewrite Halias. apply (fits_weaken 12 50); [lia|].
      apply (shortCodes_fit s C old Hold).
    + exact F200.
  - unfold createRoute, try_catch, bind. rewrite Halias. cbn [truthy_opt coalesce].
    rewrite Htruthy. cbn [checkCustomAlias databaseStorage]. rewrite Hcheck.
    cbn [or_else]. rewrite Htruthy. unfold generateQRCode.
    destruct (toDataURL _) as [qr|]; [|reflexivity].
    unfold ret at 1. cbn [createUrl databaseStorage].
    destruct (createUrl_taken now (nano 1%nat) _ s (Htaken (nano 1%nat) qr)) as (m & -> & _).
    reflexivity.
Qed.

Lemma alias_of_retired_link_witness :
  createRoute Demo.toDataURL 300 Demo.draws None "http://localhost:3000"
    (Ok (Demo.withAlias "abcdefgh")) Demo.retired =
  (Demo.retired, Ok {| status := 500; body := Message "Failed to create short URL" |}).
Proof.
  assert (R : reachable Demo.retired)
    by exact (reachable_after _ _ (reachable_after _ _ reachable_empty)).
  assert (Hin : In (DatabaseStorage.retire (Demo.stored None)) (urls Demo.retired))
    by (vm_compute; left; reflexivity).
  apply (alias_of_retired_link_fails_at_insert Demo.toDataURL 300 Demo.draws None
           "http://localhost:3000" (Demo.withAlias "abcdefgh") Demo.retired
           (DatabaseStorage.retire (Demo.stored None)) R Hin);
    reflexivity.
Defined.

(** ** C6 *)

(** The first draw is the code of the stored link and the second is free:
    the allocator of the specification answers with the second draw, the
    route answers 500 and creates nothing. *)
Lemma createRoute_gives_up_on_first_collision :
  spec_allocate 5 (activeCode Demo.created) Demo.draws 0 = Ok "zzzzzzzz" /\
  createRoute Demo.toDataURL 300 Demo.draws None "http://localhost:3000"
    (Ok Demo.body) Demo.created =
  (Demo.created, Ok {| status := 500; body := Message "Failed to create short URL" |}).
Proof. split; vm_compute; reflexivity. Qed.

Lemma truthy_of_length (code : string) (n : nat) :
  String.length code = S n -> truthy code = true.
Proof. destruct code; [discriminate|reflexivity]. Qed.

(** C6, amended. For a creation request without custom alias, in a reachable
    store, the handler takes the one code [nanoid(8)] gives it (8 characters
    by the contract of that function), checks nothing itself and attempts one
    insert. If a stored link, active or retired, already has the code, the
    unique constraint refuses the insert: the answer is the 500 "Failed to
    create short URL" and nothing is written, no other code being drawn.
    Otherwise, the title fitting its column and the QR code being rendered,
    the link is created with that code. *)
Theorem createRoute_allocates_in_one_attempt
    (toDataURL : string -> option string) (now : Timestamp) (nano : nat -> string)
    (user : option string) (baseUrl : string) (validatedData : InsertUrl) (s : Store) :
  reachable s ->
  ins_customAlias validatedData = None ->
  String.length (nano 0%nat) = 8%nat ->
  (existsb (fun u => String.eqb (Url.shortCode u) (nano 0%nat)) (urls s) = true ->
   createRoute toDataURL now nano user baseUrl (Ok validatedData) s =
     (s, Ok {| status := 500; body := Message "Failed to create short URL" |})) /\
  (existsb (fun u => String.eqb (Url.shortCode u) (nano 0%nat)) (urls s) = false ->
   fits 200 (ins_title validatedData) = true ->
   is_Some (toDataURL (baseUrl ++ "/" ++ nano 0%nat)%string) ->
   exists url s',
     createRoute toDataURL now nano user baseUrl (Ok validatedData) s =
       (s', Ok {| status := 200;
                  body := ShortUrl url (baseUrl ++ "/" ++ nano 0%nat)%string |}) /\
     Url.shortCode url = nano 0%nat /\ urls s' = urls s ++ [url]).
Proof.
  intros R Halias Hlen.
  pose proof (reachable_consistent s R) as C.
  pose proof (truthy_of_length _ _ Hlen) as Htruthy.
  assert (Hroute :
    createRoute toDataURL now nano user baseUrl (Ok validatedData) s =
    match toDataURL (baseUrl ++ "/" ++ nano 0%nat)%string with
    | Some qr =>
        match DatabaseStorage.createUrl now (nano 1%nat)
                (createArgs validatedData (nano 0%nat) user qr) s with
        | (s', Ok url) =>
            (s', Ok {| status := 200;
                       body := ShortUrl url (baseUrl ++ "/" ++ nano 0%nat)%string |})
        | (s', Thrown (ZodError message)) =>
            (s', Ok {| status := 400; body := Message message |})
        | (s', Thrown _) =>
            (s', Ok {| status := 500; body := Message "Failed to create short URL" |})
        end
    | None => (s, Ok {| status := 500; body := Message "Failed to create short URL" |})
    end).
  { unfold createRoute, try_catch, bind. rewrite Halias. cbn [truthy_opt or_else].
    unfold ret at 1. cbn iota beta. unfold generateQRCode.
    destruct (toDataURL _) as [qr|]; [|reflexivity].
    unfold ret at 1. cbn [createUrl databaseStorage].
    destruct (DatabaseStorage.createUrl _ _ _ s) as [s' [url|[]]]; reflexivity. }
  rewrite Hroute. split.
  - intros Htaken. destruct (toDataURL _) as [qr|]; [|reflexivity].
    destruct (createUrl_taken now (nano 1%nat)
                (createArgs validatedData (nano 0%nat) user qr) s) as (m & -> & _);
      [|reflexivity].
    cbn. rewrite Htruthy. exact Htaken.
  - intros Hfree F200 [qr ->].
    destruct (createUrl_fresh now (nano 1%nat)
                (createArgs validatedData (nano 0%nat) user qr) s C)
      as (url & s' & -> & Ecode & Eurls & _).
    + cbn. rewrite Htruthy. cbn. rewrite Hlen. reflexivity.
    + cbn. rewrite Halias. reflexivity.
    + exact F200.
    + cbn. rewrite Htruthy. exact Hfree.
    + exists url, s'. split; [reflexivity|]. split; [|exact Eurls].
      rewrite Ecode. cbn. rewrite Htruthy. reflexivity.
Qed.

Lemma createRoute_one_attempt_witness :
  createRoute Demo.toDataURL 300 Demo.draws None "http://localhost:3000"
    (Ok Demo.body) Demo.created =
  (Demo.created, Ok {| status := 500; body := Message "Failed to create short URL" |}).
Proof.
  assert (R : reachable Demo.created) by exact (reachable_after _ _ reachable_empty).
  destruct (createRoute_allocates_in_one_attempt Demo.toDataURL 300 Demo.draws None
              "http://localhost:3000" Demo.body Demo.created R eq_refl eq_refl)
    as [Hcollision _].
  apply Hcollision. vm_compute. reflexivity.
Defined.

(** ** C7 *)

(** The owner renames the demo link: the same row now has another code. *)
Lemma update_with_new_alias_changes_shortCode :
  let run := updateRoute 300 "u1" 0%N (Demo.rename "promo") "http://localhost:3000"
               Demo.created in
  List.map Url.shortCode (urls Demo.created) = ["abcdefgh"] /\
  List.map Url.id (urls (fst run)) = List.map Url.id (urls Demo.created) /\
  List.map Url.shortCode (urls (fst run)) = ["promo"].
Proof. cbv zeta. split; [|split]; vm_compute; reflexivity. Qed.

Lemma map_shortCode_updateRow now id updates rows :
  upd_shortCode updates = None ->
  List.map Url.shortCode (List.map (DatabaseStorage.updateRow now id updates) rows) =
  List.map Url.shortCode rows.
Proof.
  intros E. rewrite List.map_map. apply List.map_ext. intros u.
  unfold DatabaseStorage.updateRow. destruct (Url.id u =? id)%N; [|reflexivity].
  cbn. rewrite E. reflexivity.
Qed.

Lemma updateUrl_keeps_shortCodes now id updates s :
  upd_shortCode updates = None ->
  List.map Url.shortCode (urls (fst (DatabaseStorage.updateUrl now id updates s))) =
  List.map Url.shortCode (urls s).
Proof.
  intros E. unfold DatabaseStorage.updateUrl.
  destruct (existsb _ _); cbn [fst]; [reflexivity|].
  apply map_shortCode_updateRow, E.
Qed.

Lemma urls_updateUrlAnalytics now urlId s :
  urls (fst (DatabaseStorage.updateUrlAnalytics now urlId s)) = urls s.
Proof.
  rewrite updateUrlAnalytics_throws. reflexivity.
Qed.

Lemma urls_recordClick now c s :
  urls (fst (DatabaseStorage.recordClick now c s)) = urls s.
Proof.
  destruct (recordClick_insertClick now c s) as [-> _].
  destruct (insertClick_cases now c s) as [[e ->]|(row & -> & _)]; reflexivity.
Qed.

Lemma urls_createUrl now gen ins s :
  exists added, urls (fst (DatabaseStorage.createUrl now gen ins s)) = urls s ++ added.
Proof.
  unfold DatabaseStorage.createUrl, bind.
  destruct (insertUrl_cases now (or_else (ins_shortCode ins)
                                   (DatabaseStorage.generateShortCode gen)) ins s)
    as [[e ->]|(url & -> & _)]; [exists []; cbn; rewrite List.app_nil_r; reflexivity|].
  exists [url].
  match goal with |- context [DatabaseStorage.insertEmptyAnalytics ?n ?i ?st] =>
    destruct (insertEmptyAnalytics_cases n i st) as [(e & -> & _)|(-> & _)] end;
    reflexivity.
Qed.

(** C7, amended. The short code of a stored link changes through the update
    operation only. (1) No call of the storage other than an [updateUrl]
    whose updates carry a [shortCode] changes the code of a stored link;
    creation only appends a row. (2) [PUT /urls/:id] leaves the codes as they
    are when the body has no [shortCode] and no non-empty [customAlias] that
    differs from the current one. (3) When the body has such an alias and the
    request is answered 200, the link now has that alias as its short code. *)
Theorem shortCode_changes_only_through_update :
  (forall (c : Call) (s : Store),
     match c with
     | UpdateUrl _ _ updates => upd_shortCode updates = None
     | _ => True
     end ->
     exists added,
       List.map Url.shortCode (urls (after c s)) =
       List.map Url.shortCode (urls s) ++ added) /\
  (forall now user id updates baseUrl (s : Store),
     upd_shortCode updates = None ->
     (forall url, In url (urls s) -> Url.id url = id -> newAlias updates url = None) ->
     List.map Url.shortCode (urls (fst (updateRoute now user id updates baseUrl s))) =
     List.map Url.shortCode (urls s)) /\
  (forall now user id updates baseUrl (s s' : Store) url alias updated shortUrl,
     snd (DatabaseStorage.getUrlById id s) = Ok (Some url) ->
     newAlias updates url = Some alias ->
     updateRoute now user id updates baseUrl s =
       (s', Ok {| status := 200; body := ShortUrl updated shortUrl |}) ->
     Url.id updated = Url.id url /\ Url.shortCode updated = alias /\
     In updated (urls s')).
Proof.
  split; [|split].
  - intros [now gen ins|now id updates|id|now c|now urlId] s Hc; cbn [after].
    + destruct (urls_createUrl now gen ins s) as (added & ->).
      exists (List.map Url.shortCode added). apply List.map_app.
    + exists []. rewrite List.app_nil_r. apply updateUrl_keeps_shortCodes, Hc.
    + exists []. rewrite List.app_nil_r. cbn. rewrite List.map_map.
      apply List.map_ext. intros u. destruct (Url.id u =? id)%N; reflexivity.
    + exists []. rewrite List.app_nil_r, urls_recordClick. reflexivity.
    + exists []. rewrite List.app_nil_r, urls_updateUrlAnalytics. reflexivity.
  - intros now user id updates baseUrl s Hnone Hsame.
    unfold updateRoute, try_catch, bind. cbn [getUrlById databaseStorage].
    unfold DatabaseStorage.getUrlById.
    destruct (head _) as [url|] eqn:E; [|reflexivity].
    apply head_filter_In in E as [Hin Eid]. apply N.eqb_eq in Eid.
    destruct (bool_decide _); cbn [negb]; [|reflexivity].
    rewrite (Hsame url Hin Eid). unfold applyUpdate, bind. cbn [updateUrl databaseStorage].
    pose proof (updateUrl_keeps_shortCodes now id updates s Hnone) as Hkeep.
    destruct (DatabaseStorage.updateUrl now id updates s) as [s' [[updated|]|e]];
      exact Hkeep.
  - intros now user id updates baseUrl s s' url alias updated shortUrl Hget Halias.
    unfold updateRoute, try_catch, bind. cbn [getUrlById databaseStorage].
    unfold DatabaseStorage.getUrlById in *. cbn [snd] in Hget. injection Hget as Hget.
    rewrite Hget. destruct (bool_decide _); cbn [negb]; [|discriminate].
    rewrite Halias. cbn [checkCustomAlias databaseStorage].
    unfold DatabaseStorage.checkCustomAlias.
    destruct (List.filter (DatabaseStorage.activeWithCode alias) (urls s));
      [|discriminate].
    unfold applyUpdate, bind. cbn [updateUrl databaseStorage].
    unfold DatabaseStorage.updateUrl.
    destruct (existsb _ _); [discriminate|].
    pose proof (head_filter_In _ _ _ Hget) as [Hin Eid].
    destruct (List.filter _ (urls s)) as [|t targets]; [discriminate|].
    injection Hget as ->. cbn [List.map head]. unfold ret, throw.
    intros [= <- <- _]. split; [reflexivity|]. split; [reflexivity|].
    cbn. apply in_map_iff. exists url. split; [|exact Hin].
    unfold DatabaseStorage.updateRow. rewrite Eid. reflexivity.
Qed.

Lemma shortCode_changes_witness :
  List.map Url.shortCode
    (urls (fst (updateRoute 300 "u1" 0%N (Demo.retitle "Landing page")
                  "http://localhost:3000" Demo.created))) =
  List.map Url.shortCode (urls Demo.created).
Proof.
  destruct shortCode_changes_only_through_update as (_ & Hkeep & _).
  apply (Hkeep 300 "u1" 0%N (Demo.retitle "Landing page") "http://localhost:3000"
           Demo.created).
  - reflexivity.
  - intros url _ _. reflexivity.
Defined.

(** * Further properties *)

(** ** Invariants of the reachable stores *)

Lemma filter_unique_le_1 {A B} (f : A -> B) (p : A -> bool) (l : list A) :
  List.NoDup (List.map f l) ->
  (forall x y, In x l -> In y l -> p x = true -> p y = true -> f x = f y) ->
  (length (List.filter p l) <= 1)%nat.
Proof.
  intros Hnd Hsame.
  destruct (List.filter p l) as [|x [|y rest]] eqn:E; cbn; try lia.
  exfalso.
  assert (Hx : In x (List.filter p l)) by (rewrite E; left; reflexivity).
  assert (Hy : In y (List.filter p l)) by (rewrite E; right; left; reflexivity).
  apply filter_In in Hx as [Hx Px]. apply filter_In in Hy as [Hy Py].
  assert (Exy : x = y)
    by (apply (NoDup_map_inj f l x y Hnd Hx Hy), Hsame; assumption).
  subst y.
  assert (Hnd' : List.NoDup (List.filter p l)) by (apply List.NoDup_filter;
    eapply List.NoDup_map_inv; exact Hnd).
  rewrite E in Hnd'. apply List.NoDup_cons_iff in Hnd' as [Hn _].
  apply Hn. left. reflexivity.
Qed.

(** X1. In every store the service can reach, no two rows of [urls], active
    or retired, share a short code or an id; hence at most one active link
    answers to a given code. *)
Theorem reachable_codes_unique (s : Store) :
  reachable s ->
  List.NoDup (List.map Url.shortCode (urls s)) /\
  List.NoDup (List.map Url.id (urls s)) /\
  forall code,
    (length (List.filter (DatabaseStorage.activeWithCode code) (urls s)) <= 1)%nat.
Proof.
  intros R. pose proof (reachable_consistent s R) as C.
  split; [apply (shortCodes_unique s C)|]. split; [apply (url_ids_unique s C)|].
  intros code. apply (filter_unique_le_1 Url.shortCode); [apply (shortCodes_unique s C)|].
  intros x y _ _ [Ex _]%activeWithCode_true [Ey _]%activeWithCode_true. congruence.
Qed.

Lemma reachable_codes_unique_witness :
  List.NoDup (List.map Url.shortCode (urls Demo.clicked)).
Proof.
  assert (R : reachable Demo.clicked)
    by exact (reachable_after _ _ (reachable_after _ _ reachable_empty)).
  exact (proj1 (reachable_codes_unique Demo.clicked R)).
Defined.

Lemma hasUrl_same_ids (s s' : Store) (urlId : Id) :
  List.map Url.id (urls s') = List.map Url.id (urls s) ->
  DatabaseStorage.hasUrl urlId s' = DatabaseStorage.hasUrl urlId s.
Proof.
  intros E. unfold DatabaseStorage.hasUrl.
  assert (Hm : forall l, existsb (fun u => N.eqb (Url.id u) urlId) l =
                         existsb (fun i => N.eqb i urlId) (List.map Url.id l)).
  { induction l as [|u l IH]; cbn; [reflexivity|]. rewrite IH. reflexivity. }
  rewrite !Hm, E. reflexivity.
Qed.

Lemma referential_same_ids (s s' : Store) :
  referential s ->
  List.map Url.id (urls s') = List.map Url.id (urls s) ->
  urlClicks s' = urlClicks s -> urlAnalytics s' = urlAnalytics s ->
  referential s'.
Proof.
  intros F Hid Hc Ha. split.
  - rewrite Hc. intros c Hin. rewrite (hasUrl_same_ids s s' _ Hid).
    apply (clicks_refer s F c Hin).
  - rewrite Ha. intros a Hin. rewrite (hasUrl_same_ids s s' _ Hid).
    apply (snapshots_refer s F a Hin).
  - rewrite Ha. apply (snapshots_unique s F).
Qed.

Lemma hasUrl_more_urls (s s' : Store) (urlId : Id) (added : list Url.t) :
  urls s' = urls s ++ added ->
  DatabaseStorage.hasUrl urlId s = true -> DatabaseStorage.hasUrl urlId s' = true.
Proof.
  intros E (u & Hu & Eu)%hasUrl_true. apply hasUrl_true. exists u.
  split; [rewrite E; apply in_or_app; auto|exact Eu].
Qed.

Lemma referential_updateUrl now id updates s :
  referential s -> referential (fst (DatabaseStorage.updateUrl now id updates s)).
Proof.
  intros F. unfold DatabaseStorage.updateUrl.
  destruct (existsb _ _); cbn [fst]; [exact F|].
  apply (referential_same_ids s); try reflexivity; [exact F|]. apply map_id_updateRow.
Qed.

Lemma referential_deleteUrl id s :
  referential s -> referential (fst (DatabaseStorage.deleteUrl id s)).
Proof.
  intros F. apply (referential_same_ids s); try reflexivity; [exact F|]. cbn.
  rewrite List.map_map. apply List.map_ext. intros u.
  destruct (Url.id u =? id)%N; reflexivity.
Qed.

Lemma referential_createUrl now gen ins s :
  consistent s -> referential s ->
  referential (fst (DatabaseStorage.createUrl now gen ins s)).
Proof.
  intros C F. unfold DatabaseStorage.createUrl, bind.
  destruct (insertUrl_cases now (or_else (ins_shortCode ins)
                                   (DatabaseStorage.generateShortCode gen)) ins s)
    as [[e ->]|(url & -> & Eid & _)]; [exact F|].
  match goal with |- context [DatabaseStorage.insertEmptyAnalytics ?n ?i ?st] =>
    set (s1 := st);
    destruct (insertEmptyAnalytics_cases n i s1) as [(e & -> & _)|(-> & HU & HA)] end.
  - cbn [fst]. split.
    + intros c Hin. eapply (hasUrl_more_urls s s1); [reflexivity|].
      apply (clicks_refer s F c Hin).
    + intros a Hin. eapply (hasUrl_more_urls s s1); [reflexivity|].
      apply (snapshots_refer s F a Hin).
    + apply (snapshots_unique s F).
  - unfold ret. cbn [fst]. split; cbn [urls urlClicks urlAnalytics].
    + intros c Hin.
      eapply (hasUrl_more_urls s); [cbn; reflexivity|apply (clicks_refer s F c Hin)].
    + intros a [Hin|[<-|[]]]%in_app_or.
      * eapply (hasUrl_more_urls s); [cbn; reflexivity|apply (snapshots_refer s F a Hin)].
      * exact HU.
    + rewrite List.map_app. cbn. apply NoDup_snoc; [|apply (snapshots_unique s F)].
      intros (a & Ea & Ha)%in_map_iff.
      assert (DatabaseStorage.hasAnalytics (Url.id url) s1 = true) as HA'; [|congruence].
      apply hasAnalytics_true. exists a. auto.
Qed.

Lemma referential_insertClick now c s :
  referential s -> referential (fst (DatabaseStorage.insertClick now c s)).
Proof.
  intros F.
  destruct (insertClick_cases now c s) as [[e ->]|(row & -> & Erow & _ & HU)]; [exact F|].
  cbn [fst]. split; cbn [urls urlClicks urlAnalytics].
  - intros c' [Hin|[<-|[]]]%in_app_or.
    + apply (clicks_refer s F c' Hin).
    + rewrite Erow. exact HU.
  - apply (snapshots_refer s F).
  - apply (snapshots_unique s F).
Qed.

Lemma referential_updateUrlAnalytics now urlId s :
  referential s -> referential (fst (DatabaseStorage.updateUrlAnalytics now urlId s)).
Proof.
  intros F. rewrite updateUrlAnalytics_throws. exact F.
Qed.

Lemma referential_recordClick now c s :
  referential s -> referential (fst (DatabaseStorage.recordClick now c s)).
Proof.
  intros F. destruct (recordClick_insertClick now c s) as [-> _].
  apply referential_insertClick, F.
Qed.

Lemma reachable_referential s : reachable s -> referential s.
Proof.
  induction 1 as [|c s R IH].
  - split; cbn; try (intros ? []); constructor.
  - pose proof (reachable_consistent s R) as C. destruct c; cbn [after].
    + apply referential_createUrl; assumption.
    + apply referential_updateUrl, IH.
    + apply referential_deleteUrl, IH.
    + apply referential_recordClick, IH.
    + apply referential_updateUrlAnalytics, IH.
Qed.

Lemma filter_length_1 {A B} (f : A -> B) (p : A -> bool) (l : list A) :
  List.NoDup (List.map f l) ->
  (forall x y, In x l -> In y l -> p x = true -> p y = true -> f x = f y) ->
  existsb p l = true -> length (List.filter p l) = 1%nat.
Proof.
  intros Hnd Hsame Hex. pose proof (filter_unique_le_1 f p l Hnd Hsame) as Hle.
  destruct (head_filter_Some p l Hex) as (x & Hx & _).
  destruct (List.filter p l); [discriminate|]. cbn in *. lia.
Qed.

(** X2. In every store the service can reach, every click row and every
    snapshot row belongs to a stored link, and every stored link, active or
    retired, has exactly one snapshot row. *)
Theorem reachable_references_hold (s : Store) :
  reachable s ->
  referential s /\
  forall u, In u (urls s) ->
    length (List.filter (fun a => N.eqb (UrlAnalytics.urlId a) (Url.id u))
                        (urlAnalytics s)) = 1%nat.
Proof.
  intros R. pose proof (reachable_referential s R) as F.
  split; [exact F|]. intros u Hu.
  apply (filter_length_1 UrlAnalytics.urlId); [apply (snapshots_unique s F)| |].
  - intros x y _ _ Ex%N.eqb_eq Ey%N.eqb_eq. congruence.
  - apply (analytics_present s (reachable_consistent s R) u Hu).
Qed.

Lemma reachable_references_witness :
  length (List.filter (fun a => N.eqb (UrlAnalytics.urlId a) 0%N)
                      (urlAnalytics Demo.clicked)) = 1%nat.
Proof.
  assert (R : reachable Demo.clicked)
    by exact (reachable_after _ _ (reachable_after _ _ reachable_empty)).
  assert (Hin : In (Demo.stored None) (urls Demo.clicked))
    by (vm_compute; left; reflexivity).
  exact (proj2 (reachable_references_hold Demo.clicked R) (Demo.stored None) Hin).
Defined.

(** ** Creation, update and retirement in the storage *)

(** The row [insert into urls] writes. *)
Lemma insertUrl_row now code ins s :
  (exists e, DatabaseStorage.insertUrl now code ins s = (s, Thrown e)) \/
  (let url :=
     {| Url.id := nextId s;
        Url.originalUrl := ins_originalUrl ins;
        Url.shortCode := code;
        Url.customAlias := ins_customAlias ins;
        Url.title := ins_title ins;
        Url.description := ins_description ins;
        Url.userId := ins_userId ins;
        Url.isActive := match ins_isActive ins with Some v => v | None => Some true end;
        Url.qrCodeUrl := ins_qrCodeUrl ins;
        Url.createdAt := Some now;
        Url.updatedAt := Some now;
        Url.expiresAt := ins_expiresAt ins |} in
   DatabaseStorage.insertUrl now code ins s =
     ({| urls := urls s ++ [url]; urlClicks := urlClicks s;
         urlAnalytics := urlAnalytics s; nextId := N.succ (nextId s) |}, Ok url)
   /\ existsb (fun u => String.eqb (Url.shortCode u) code) (urls s) = false).
Proof.
  unfold DatabaseStorage.insertUrl.
  destruct (negb _); [left; eauto|].
  destruct (existsb _ (urls s)) eqn:Efree; [left; eauto|].
  right. split; reflexivity.
Qed.

(** In a store that satisfies the constraints [createUrl] has two ways out:
    it throws before any write, or it writes the link and its snapshot. *)
Lemma createUrl_cases now gen ins s :
  consistent s ->
  (exists e, DatabaseStorage.createUrl now gen ins s = (s, Thrown e)) \/
  (exists url,
     DatabaseStorage.createUrl now gen ins s =
       ({| urls := urls s ++ [url]; urlClicks := urlClicks s;
           urlAnalytics := urlAnalytics s ++
             [DatabaseStorage.emptyAnalytics (N.succ (nextId s)) (Url.id url) now];
           nextId := N.succ (N.succ (nextId s)) |}, Ok url)
     /\ Url.id url = nextId s
     /\ Url.shortCode url = or_else (ins_shortCode ins) gen
     /\ Url.isActive url = match ins_isActive ins with Some v => v | None => Some true end
     /\ Url.userId url = ins_userId ins
     /\ Url.customAlias url = ins_customAlias ins
     /\ Url.originalUrl url = ins_originalUrl ins
     /\ existsb (fun u => String.eqb (Url.shortCode u) (Url.shortCode url)) (urls s) = false).
Proof.
  intros C. unfold DatabaseStorage.createUrl, bind, DatabaseStorage.generateShortCode.
  destruct (insertUrl_row now (or_else (ins_shortCode ins) gen) ins s)
    as [[e ->]|(-> & Efree)]; [left; eauto|].
  match goal with |- context [DatabaseStorage.insertEmptyAnalytics ?n ?i ?st] =>
    destruct (insertEmptyAnalytics_cases n i st) as [(e & _ & [HU|HA])|(E & _ & _)] end.
  - exfalso. revert HU. unfold DatabaseStorage.hasUrl. cbn [urls Url.id].
    rewrite existsb_app. cbn. rewrite N.eqb_refl, orb_true_r. discriminate.
  - exfalso. apply hasAnalytics_true in HA as (a & Ha & Ea). cbn in Ha.
    pose proof (analytics_refer s C a Ha) as Hlt. rewrite Ea in Hlt. cbn in Hlt. lia.
  - right. eexists. rewrite E. split; [reflexivity|]. cbn. repeat split. exact Efree.
Qed.

(** X3. In a reachable store [createUrl] is all or nothing, although it is
    two inserts outside a transaction: either it throws and the store is as
    before, or it returns the new row, which comes last in [urls] with a
    fresh id, and the only other write is the snapshot row of the link, with
    its counters at 0 and its maps empty. *)
Theorem createUrl_all_or_nothing
    (now : Timestamp) (gen : string) (insertUrl : InsertUrl) (s : Store) :
  reachable s ->
  (exists e, DatabaseStorage.createUrl now gen insertUrl s = (s, Thrown e)) \/
  (exists url s',
     DatabaseStorage.createUrl now gen insertUrl s = (s', Ok url) /\
     ~ In (Url.id url) (List.map Url.id (urls s)) /\
     urls s' = urls s ++ [url] /\ urlClicks s' = urlClicks s /\
     exists id, urlAnalytics s' =
                urlAnalytics s ++ [DatabaseStorage.emptyAnalytics id (Url.id url) now]).
Proof.
  intros R. pose proof (reachable_consistent s R) as C.
  destruct (createUrl_cases now gen insertUrl s C) as [Hthrow|(url & E & Eid & _)];
    [left; exact Hthrow|].
  right. exists url. eexists. split; [exact E|]. split.
  - intros (u & Eu & Hu)%in_map_iff. pose proof (url_ids_issued s C u Hu). lia.
  - cbn. repeat split. eexists. reflexivity.
Qed.

Lemma createUrl_all_or_nothing_witness :
  exists e, DatabaseStorage.createUrl 300 "zzzzzzzz" (Demo.link None) Demo.created =
            (Demo.created, Thrown e).
Proof.
  assert (R : reachable Demo.created) by exact (reachable_after _ _ reachable_empty).
  destruct (createUrl_all_or_nothing 300 "zzzzzzzz" (Demo.link None) Demo.created R)
    as [Hthrow|(url & s' & E & _)].
  - exact Hthrow.
  - vm_compute in E. discriminate E.
Defined.

Lemma filter_app_singleton {A} (p : A -> bool) (l : list A) (x : A) :
  existsb p l = false ->
  List.filter p (l ++ [x]) = if p x then [x] else [].
Proof.
  intros E. rewrite List.filter_app, filter_nil by (apply existsb_false_forall; exact E).
  reflexivity.
Qed.

(** X4. In a reachable store, a link that [createUrl] has returned can be
    looked up at once: [getUrlById] finds it by its id, and [getUrl] and
    [checkCustomAlias] find it by its short code exactly when it was created
    active (an [isActive] left out of the request takes the default, true). *)
Theorem createUrl_then_lookup
    (now : Timestamp) (gen : string) (insertUrl : InsertUrl) (s s' : Store) (url : Url.t) :
  reachable s ->
  DatabaseStorage.createUrl now gen insertUrl s = (s', Ok url) ->
  DatabaseStorage.getUrlById (Url.id url) s' = (s', Ok (Some url)) /\
  Url.isActive url = match ins_isActive insertUrl with Some v => v | None => Some true end /\
  DatabaseStorage.getUrl (Url.shortCode url) s' =
    (s', Ok (match Url.isActive url with Some true => Some url | _ => None end)) /\
  DatabaseStorage.checkCustomAlias (Url.shortCode url) s' =
    (s', Ok (match Url.isActive url with Some true => true | _ => false end)).
Proof.
  intros R E. pose proof (reachable_consistent s R) as C.
  destruct (createUrl_cases now gen insertUrl s C)
    as [[e E']|(url' & E' & Eid & _ & Eact & _ & _ & _ & Efree)]; [congruence|].
  rewrite E' in E. injection E as <- <-.
  assert (Hcode : List.filter (DatabaseStorage.activeWithCode (Url.shortCode url'))
                    (urls s ++ [url']) =
                  match Url.isActive url' with Some true => [url'] | _ => [] end).
  { rewrite filter_app_singleton.
    - unfold DatabaseStorage.activeWithCode. rewrite String.eqb_refl.
      destruct (Url.isActive url') as [[]|]; reflexivity.
    - apply existsb_false_forall. intros u Hu.
      rewrite existsb_false_forall in Efree. specialize (Efree u Hu).
      unfold DatabaseStorage.activeWithCode. rewrite Efree. reflexivity. }
  split; [|split; [exact Eact|split]].
  - unfold DatabaseStorage.getUrlById. cbn [urls]. rewrite filter_app_singleton.
    + rewrite N.eqb_refl. reflexivity.
    + apply existsb_false_forall. intros u Hu. apply N.eqb_neq.
      pose proof (url_ids_issued s C u Hu). lia.
  - unfold DatabaseStorage.getUrl. cbn [urls]. rewrite Hcode.
    destruct (Url.isActive url') as [[]|]; reflexivity.
  - unfold DatabaseStorage.checkCustomAlias. cbn [urls]. rewrite Hcode.
    destruct (Url.isActive url') as [[]|]; reflexivity.
Qed.

Lemma createUrl_then_lookup_witness :
  DatabaseStorage.getUrl "abcdefgh" Demo.created = (Demo.created, Ok (Some (Demo.stored None))).
Proof.
  assert (E : DatabaseStorage.createUrl 100 "zzzzzzzz" (Demo.link None) emptyStore =
              (Demo.created, Ok (Demo.stored None))) by (vm_compute; reflexivity).
  destruct (createUrl_then_lookup 100 "zzzzzzzz" (Demo.link None) emptyStore Demo.created
              (Demo.stored None) reachable_empty E) as (_ & _ & Hget & _).
  exact Hget.
Defined.

Lemma set_urls_id (s : Store) (f : list Url.t -> list Url.t) :
  f (urls s) = urls s -> DatabaseStorage.set_urls f s = s.
Proof. destruct s. unfold DatabaseStorage.set_urls. cbn. intros ->. reflexivity. Qed.

Lemma map_untouched {A} (f : A -> A) (l : list A) :
  (forall x, In x l -> f x = x) -> List.map f l = l.
Proof.
  induction l as [|y l IH]; cbn; [reflexivity|]. intros Hall.
  rewrite (Hall y (or_introl eq_refl)), IH; [reflexivity|]. intros x Hx. apply Hall. auto.
Qed.

(** X5. Retiring is idempotent and total: [deleteUrl] never throws, a second
    [deleteUrl] of the same id changes nothing more, and for an id that no
    row has the store is left exactly as it was. Only the [isActive] flag of
    the rows with that id is written. *)
Theorem deleteUrl_idempotent (id : Id) (s : Store) :
  snd (DatabaseStorage.deleteUrl id s) = Ok tt /\
  DatabaseStorage.deleteUrl id (fst (DatabaseStorage.deleteUrl id s)) =
    DatabaseStorage.deleteUrl id s /\
  (DatabaseStorage.hasUrl id s = false -> DatabaseStorage.deleteUrl id s = (s, Ok tt)) /\
  List.map Url.shortCode (urls (fst (DatabaseStorage.deleteUrl id s))) =
    List.map Url.shortCode (urls s) /\
  urlClicks (fst (DatabaseStorage.deleteUrl id s)) = urlClicks s /\
  urlAnalytics (fst (DatabaseStorage.deleteUrl id s)) = urlAnalytics s.
Proof.
  split; [reflexivity|]. split; [|split; [|split; [|split; reflexivity]]].
  - unfold DatabaseStorage.deleteUrl. cbn [fst]. f_equal.
    unfold DatabaseStorage.set_urls. cbn [urls urlClicks urlAnalytics nextId]. f_equal.
    rewrite List.map_map. apply List.map_ext. intros u.
    destruct (N.eqb_spec (Url.id u) id) as [E|NE]; cbn.
    + rewrite E, N.eqb_refl. reflexivity.
    + destruct (N.eqb_spec (Url.id u) id); [tauto|reflexivity].
  - intros Hno. unfold DatabaseStorage.deleteUrl. f_equal. apply set_urls_id.
    apply map_untouched. intros u Hu.
    destruct (N.eqb_spec (Url.id u) id) as [E|_]; [|reflexivity].
    assert (DatabaseStorage.hasUrl id s = true) as Hyes; [|congruence].
    apply hasUrl_true. eauto.
  - cbn. rewrite List.map_map. apply List.map_ext. intros u.
    destruct (Url.id u =? id)%N; reflexivity.
Qed.

Lemma deleteUrl_idempotent_witness :
  DatabaseStorage.deleteUrl 7%N Demo.created = (Demo.created, Ok tt).
Proof.
  destruct (deleteUrl_idempotent 7%N Demo.created) as (_ & _ & Hno & _).
  apply Hno. vm_compute. reflexivity.
Defined.

(** X6. [updateUrl] on an id that no row has updates nothing: it returns
    [undefined] and leaves the store as it was. On a row it has, a
    completed [updateUrl] returns a row with the same id and creation time,
    stamped with the instant of the update. *)
Theorem updateUrl_unknown_id (now : Timestamp) (id : Id) (updates : UrlPatch) (s : Store) :
  (DatabaseStorage.hasUrl id s = false ->
   DatabaseStorage.updateUrl now id updates s = (s, Ok None)) /\
  (forall s' url, DatabaseStorage.updateUrl now id updates s = (s', Ok (Some url)) ->
     Url.id url = id /\ Url.updatedAt url = Some now /\ In url (urls s') /\
     exists old, In old (urls s) /\ Url.id old = id /\
                 Url.createdAt url = Url.createdAt old).
Proof.
  split.
  - intros Hno.
    assert (Hnone : forall u, In u (urls s) -> N.eqb (Url.id u) id = false).
    { intros u Hu. destruct (N.eqb_spec (Url.id u) id) as [E|_]; [|reflexivity].
      assert (DatabaseStorage.hasUrl id s = true) as Hyes; [|congruence].
      apply hasUrl_true. eauto. }
    unfold DatabaseStorage.updateUrl. rewrite (filter_nil _ _ Hnone). cbn.
    f_equal. apply set_urls_id, map_untouched. intros u Hu.
    unfold DatabaseStorage.updateRow. rewrite (Hnone u Hu). reflexivity.
  - intros s' url. unfold DatabaseStorage.updateUrl.
    destruct (existsb _ _); [discriminate|].
    destruct (List.filter _ (urls s)) as [|old targets] eqn:Ef; [discriminate|].
    cbn [List.map head]. intros [= <- <-].
    assert (Hold : In old (List.filter (fun u => N.eqb (Url.id u) id) (urls s)))
      by (rewrite Ef; left; reflexivity).
    apply filter_In in Hold as [Hold Eid]. apply N.eqb_eq in Eid.
    split; [exact Eid|]. split; [reflexivity|]. split.
    + cbn. apply in_map_iff. exists old. split; [|exact Hold].
      unfold DatabaseStorage.updateRow. rewrite Eid, N.eqb_refl. reflexivity.
    + exists old. auto.
Qed.

Lemma updateUrl_unknown_id_witness :
  DatabaseStorage.updateUrl 300 7%N (Demo.retitle "Landing page") Demo.created =
    (Demo.created, Ok None).
Proof.
  destruct (updateUrl_unknown_id 300 7%N (Demo.retitle "Landing page") Demo.created)
    as [Hno _].
  apply Hno. vm_compute. reflexivity.
Defined.

(** ** Click recording and the snapshot *)

(** X7. A recomputation for one link writes nothing but the snapshot of that
    link: [urls] and [url_clicks] are as before, and so are the snapshot
    rows of every other link, whether the run returns or throws. *)
Theorem updateUrlAnalytics_frame (now : Timestamp) (urlId other : Id) (s : Store) :
  other <> urlId ->
  urls (fst (DatabaseStorage.updateUrlAnalytics now urlId s)) = urls s /\
  urlClicks (fst (DatabaseStorage.updateUrlAnalytics now urlId s)) = urlClicks s /\
  List.filter (fun a => N.eqb (UrlAnalytics.urlId a) other)
    (urlAnalytics (fst (DatabaseStorage.updateUrlAnalytics now urlId s))) =
  List.filter (fun a => N.eqb (UrlAnalytics.urlId a) other) (urlAnalytics s).
Proof.
  intros _.
  assert (E : fst (DatabaseStorage.updateUrlAnalytics now urlId s) = s)
    by (rewrite updateUrlAnalytics_throws; reflexivity).
  rewrite E. repeat split.
Qed.

Lemma updateUrlAnalytics_frame_witness :
  urlClicks (fst (DatabaseStorage.updateUrlAnalytics 300 0%N Demo.clicked)) =
  urlClicks Demo.clicked.
Proof.
  destruct (updateUrlAnalytics_frame 300 0%N 1%N Demo.clicked) as (_ & Hclicks & _).
  - discriminate.
  - exact Hclicks.
Defined.

(** The row [insert into url_clicks] writes. *)
Lemma insertClick_row now c s :
  (exists e, DatabaseStorage.insertClick now c s = (s, Thrown e)
             /\ (DatabaseStorage.hasUrl (clk_urlId c) s = false
                 \/ fits 45 (clk_ipAddress c) && fits 2 (clk_country c)
                    && fits 100 (clk_city c) && fits 50 (clk_device c)
                    && fits 50 (clk_browser c) && fits 50 (clk_os c) = false)) \/
  (let row :=
     {| UrlClick.id := nextId s;
        UrlClick.urlId := clk_urlId c;
        UrlClick.ipAddress := clk_ipAddress c;
        UrlClick.userAgent := clk_userAgent c;
        UrlClick.referer := clk_referer c;
        UrlClick.country := clk_country c;
        UrlClick.city := clk_city c;
        UrlClick.device := clk_device c;
        UrlClick.browser := clk_browser c;
        UrlClick.os := clk_os c;
        UrlClick.clickedAt := now |} in
   DatabaseStorage.insertClick now c s =
     ({| urls := urls s; urlClicks := urlClicks s ++ [row];
         urlAnalytics := urlAnalytics s; nextId := N.succ (nextId s) |}, Ok tt)
   /\ DatabaseStorage.hasUrl (clk_urlId c) s = true
   /\ fits 45 (clk_ipAddress c) && fits 2 (clk_country c)
      && fits 100 (clk_city c) && fits 50 (clk_device c)
      && fits 50 (clk_browser c) && fits 50 (clk_os c) = true).
Proof.
  unfold DatabaseStorage.insertClick.
  match goal with |- context [negb ?b] => destruct b eqn:F end; cbn [negb]; [|left; eauto].
  destruct (DatabaseStorage.hasUrl (clk_urlId c) s) eqn:HU; cbn [negb]; [|left; eauto].
  right. split; [reflexivity|]. split; reflexivity.
Qed.

(** X8. [recordClick] never returns, and it writes nothing but the click
    log. When the values of the click fit their columns and its link is
    stored, the call has appended exactly one row, last, holding the fields
    of the click and the instant of the call, the rows before it unaltered
    and in their order; when a value is too long or the link is unknown, the
    call has written nothing at all. *)
Theorem recordClick_appends_one_row (now : Timestamp) (insertClick : InsertUrlClick) (s : Store) :
  let s' := fst (DatabaseStorage.recordClick now insertClick s) in
  let columns_fit :=
    fits 45 (clk_ipAddress insertClick) && fits 2 (clk_country insertClick)
    && fits 100 (clk_city insertClick) && fits 50 (clk_device insertClick)
    && fits 50 (clk_browser insertClick) && fits 50 (clk_os insertClick) in
  (exists e, snd (DatabaseStorage.recordClick now insertClick s) = Thrown e) /\
  urls s' = urls s /\ urlAnalytics s' = urlAnalytics s /\
  (columns_fit = true -> DatabaseStorage.hasUrl (clk_urlId insertClick) s = true ->
   urlClicks s' = urlClicks s ++
     [{| UrlClick.id := nextId s;
         UrlClick.urlId := clk_urlId insertClick;
         UrlClick.ipAddress := clk_ipAddress insertClick;
         UrlClick.userAgent := clk_userAgent insertClick;
         UrlClick.referer := clk_referer insertClick;
         UrlClick.country := clk_country insertClick;
         UrlClick.city := clk_city insertClick;
         UrlClick.device := clk_device insertClick;
         UrlClick.browser := clk_browser insertClick;
         UrlClick.os := clk_os insertClick;
         UrlClick.clickedAt := now |}]) /\
  (columns_fit = false \/ DatabaseStorage.hasUrl (clk_urlId insertClick) s = false ->
   s' = s).
Proof.
  cbv zeta.
  destruct (recordClick_insertClick now insertClick s) as [-> Hthrows].
  split; [exact Hthrows|].
  destruct (insertClick_row now insertClick s) as [(e & -> & Hwhy)|(-> & HU & Hfit)];
    cbn [fst urls urlClicks urlAnalytics].
  - split; [reflexivity|]. split; [reflexivity|]. split; [|reflexivity].
    intros Hfit HU. destruct Hwhy; congruence.
  - split; [reflexivity|]. split; [reflexivity|]. split; [reflexivity|].
    intros [Hno|Hno]; congruence.
Qed.

Lemma recordClick_appends_witness :
  List.map UrlClick.clickedAt
    (urlClicks (fst (DatabaseStorage.recordClick 200 Demo.click Demo.created))) = [200] /\
  snd (DatabaseStorage.recordClick 200 Demo.click Demo.created) =
    Thrown (DbError "aggregate function calls cannot be nested").
Proof.
  destruct (recordClick_appends_one_row 200 Demo.click Demo.created)
    as (_ & _ & _ & Hrow & _).
  split.
  - rewrite Hrow; vm_compute; reflexivity.
  - vm_compute. reflexivity.
Defined.

(** What each call leaves in [url_analytics]: the rows it found, and after
    them the row of a link just created. *)
Lemma urlAnalytics_after (c : Call) (s : Store) :
  consistent s ->
  urlAnalytics (after c s) = urlAnalytics s \/
  exists id urlId now,
    urlAnalytics (after c s) =
    urlAnalytics s ++ [DatabaseStorage.emptyAnalytics id urlId now].
Proof.
  intros C. destruct c as [now gen ins|now id updates|id|now c|now urlId]; cbn [after].
  - destruct (createUrl_cases now gen ins s C) as [[e ->]|(url & -> & _)];
      [left; reflexivity|right; cbn; eauto].
  - left. unfold DatabaseStorage.updateUrl. destruct (existsb _ _); reflexivity.
  - left. reflexivity.
  - left. destruct (recordClick_insertClick now c s) as [-> _].
    destruct (insertClick_cases now c s) as [[e ->]|(row & -> & _)]; reflexivity.
  - left. rewrite updateUrlAnalytics_throws. reflexivity.
Qed.

Lemma reachable_asCreated (s : Store) :
  reachable s -> forall a, In a (urlAnalytics s) -> asCreated a.
Proof.
  induction 1 as [|c s R IH]; [intros a []|].
  destruct (urlAnalytics_after c s (reachable_consistent s R))
    as [->|(id & urlId & now & ->)]; [exact IH|].
  intros a [Ha|[<-|[]]]%in_app_or; [exact (IH a Ha)|].
  exists now. reflexivity.
Qed.

(** X9. No snapshot ever moves. In every store the service can reach, each
    link has its snapshot row and that row is as [createUrl] inserted it,
    whatever clicks were recorded since: both counters at 0, the four maps
    and the daily series empty, no last click. *)
Theorem reachable_snapshots_stay_as_created (s : Store) (u : Url.t) :
  reachable s -> In u (urls s) ->
  exists a, snapshot (Url.id u) s = Some a /\
    UrlAnalytics.urlId a = Url.id u /\
    UrlAnalytics.totalClicks a = Some 0 /\
    UrlAnalytics.uniqueClicks a = Some 0 /\
    UrlAnalytics.clicksByCountry a = Some ∅ /\
    UrlAnalytics.clicksByDevice a = Some ∅ /\
    UrlAnalytics.clicksByBrowser a = Some ∅ /\
    UrlAnalytics.clicksByReferer a = Some ∅ /\
    UrlAnalytics.dailyClicks a = Some ∅ /\
    UrlAnalytics.lastClickAt a = None.
Proof.
  intros R Hu. pose proof (reachable_consistent s R) as C.
  destruct (snapshot_Some _ _ (analytics_present s C u Hu)) as (a & Sa & Ha & Ea).
  exists a. split; [exact Sa|]. split; [exact Ea|].
  destruct (reachable_asCreated s R a Ha) as (now & ->). cbn. repeat split.
Qed.

Lemma reachable_snapshots_witness :
  length (DatabaseStorage.clicksOf 0%N Demo.clicked) = 1%nat /\
  exists a, snapshot 0%N Demo.clicked = Some a /\
            UrlAnalytics.totalClicks a = Some 0 /\
            UrlAnalytics.lastClickAt a = None.
Proof.
  split; [vm_compute; reflexivity|].
  assert (R : reachable Demo.clicked)
    by exact (reachable_after _ _ (reachable_after _ _ reachable_empty)).
  assert (Hin : In (Demo.stored None) (urls Demo.clicked))
    by (vm_compute; left; reflexivity).
  destruct (reachable_snapshots_stay_as_created Demo.clicked (Demo.stored None) R Hin)
    as (a & Sa & _ & Ta & _ & _ & _ & _ & _ & _ & La).
  exists a. split; [exact Sa|]. split; [exact Ta|exact La].
Defined.

(** ** The user agent *)

(** X15. Whatever the user agent, [parseUserAgent] answers with one of six
    browser labels, one of six system labels and one of three device
    classes, "Unknown" standing for an agent no rule matches (and "Desktop"
    for the device); each label fits the [varchar(50)] column it is stored
    in. *)
Theorem parseUserAgent_labels (userAgent browser os device : string) :
  parseUserAgent userAgent = (browser, os, device) ->
  In browser ["Chrome"; "Firefox"; "Safari"; "Edge"; "Opera"; "Unknown"] /\
  In os ["Windows"; "macOS"; "Linux"; "Android"; "iOS"; "Unknown"] /\
  In device ["Mobile"; "Tablet"; "Desktop"] /\
  fits 50 (Some browser) = true /\ fits 50 (Some os) = true /\
  fits 50 (Some device) = true.
Proof.
  unfold parseUserAgent. intros [= <- <- <-].
  split; [|split; [|split; [|split; [|split]]]]; split_markers; cbn; auto 10.
Qed.

Lemma parseUserAgent_labels_witness :
  let agent := "Mozilla/5.0 (X11; Linux x86_64) Chrome/115.0 Safari/537.36" in
  In (fst (fst (parseUserAgent agent)))
     ["Chrome"; "Firefox"; "Safari"; "Edge"; "Opera"; "Unknown"].
Proof.
  cbv zeta.
  apply (parseUserAgent_labels
           "Mozilla/5.0 (X11; Linux x86_64) Chrome/115.0 Safari/537.36" _
           (snd (fst (parseUserAgent
                        "Mozilla/5.0 (X11; Linux x86_64) Chrome/115.0 Safari/537.36")))
           (snd (parseUserAgent
                   "Mozilla/5.0 (X11; Linux x86_64) Chrome/115.0 Safari/537.36"))).
  vm_compute. reflexivity.
Defined.

(** X16. The browser rules in their order: the label is "Chrome" exactly
    when the agent has the [chrome] marker and not the [edg] one, so a
    Chrome agent is never taken for Safari although it names Safari too; an
    agent with the [edg] and [chrome] markers and no [firefox] one is
    "Edge"; and "Safari" and "Opera" are answered only for agents without
    the [chrome] marker. All markers are looked for in the lower-cased
    agent. *)
Theorem parseUserAgent_browser_rules (userAgent browser os device : string) :
  parseUserAgent userAgent = (browser, os, device) ->
  let marker := includes (toLowerCase userAgent) in
  (browser = "Chrome" <-> marker "chrome" = true /\ marker "edg" = false) /\
  (marker "edg" = true -> marker "chrome" = true -> marker "firefox" = false ->
   browser = "Edge") /\
  (browser = "Safari" -> marker "chrome" = false /\ marker "firefox" = false) /\
  (browser = "Opera" ->
   marker "chrome" = false /\ marker "firefox" = false /\ marker "safari" = false
   /\ marker "edg" = false).
Proof.
  unfold parseUserAgent. intros [= <- _ _]. cbv zeta.
  split_markers; cbn; repeat split; intros; try discriminate; try tauto;
    repeat match goal with H : _ /\ _ |- _ => destruct H end; discriminate.
Qed.

Lemma parseUserAgent_browser_rules_witness :
  let agent := "Mozilla/5.0 (X11; Linux x86_64) Chrome/115.0 Safari/537.36" in
  fst (fst (parseUserAgent agent)) = "Chrome".
Proof.
  cbv zeta.
  destruct (parseUserAgent_browser_rules
              "Mozilla/5.0 (X11; Linux x86_64) Chrome/115.0 Safari/537.36"
              (fst (fst (parseUserAgent
                           "Mozilla/5.0 (X11; Linux x86_64) Chrome/115.0 Safari/537.36")))
              "Linux" "Desktop") as ([_ Hchrome] & _).
  - vm_compute. reflexivity.
  - apply Hchrome. split; vm_compute; reflexivity.
Defined.

(** X17. The system and device rules in their order: "Android" is answered
    only for an agent without the [windows], [mac] and [linux] markers, and
    "iOS" only for one that has none of these nor [android], so an agent
    that names Linux beside Android is "Linux" and one that names Mac beside
    iPhone is "macOS"; every agent with the [mobile], [android] or [iphone]
    marker is "Mobile", and "Tablet" is answered only without them. *)
Theorem parseUserAgent_system_and_device_rules (userAgent browser os device : string) :
  parseUserAgent userAgent = (browser, os, device) ->
  let marker := includes (toLowerCase userAgent) in
  (os = "Android" ->
   marker "windows" = false /\ marker "mac" = false /\ marker "linux" = false) /\
  (os = "iOS" ->
   marker "windows" = false /\ marker "mac" = false /\ marker "linux" = false
   /\ marker "android" = false) /\
  (marker "windows" = false -> marker "mac" = false -> marker "linux" = true ->
   os = "Linux") /\
  (device = "Mobile" <->
   marker "mobile" = true \/ marker "android" = true \/ marker "iphone" = true) /\
  (device = "Tablet" ->
   marker "mobile" = false /\ marker "android" = false /\ marker "iphone" = false).
Proof.
  unfold parseUserAgent. intros [= _ <- <-]. cbv zeta.
  split; [|split; [|split; [|split]]];
    split_markers; cbn; repeat split; intros; try discriminate; try tauto;
    repeat match goal with H : _ \/ _ |- _ => destruct H end;
    try discriminate; auto.
Qed.

Lemma parseUserAgent_system_rules_witness :
  let agent :=
    "Mozilla/5.0 (Linux; Android 13; Pixel 7) Chrome/115.0 Mobile Safari/537.36" in
  snd (fst (parseUserAgent agent)) = "Linux".
Proof.
  cbv zeta.
  destruct (parseUserAgent_system_and_device_rules
              "Mozilla/5.0 (Linux; Android 13; Pixel 7) Chrome/115.0 Mobile Safari/537.36"
              "Chrome"
              (snd (fst (parseUserAgent
                 "Mozilla/5.0 (Linux; Android 13; Pixel 7) Chrome/115.0 Mobile Safari/537.36")))
              "Mobile") as (_ & _ & Hlinux & _).
  - vm_compute. reflexivity.
  - apply Hlinux; vm_compute; reflexivity.
Defined.

(** ** The redirect route *)

Lemma getUrl_of_active_link (s : Store) (url : Url.t) :
  consistent s -> In url (urls s) -> Url.isActive url = Some true ->
  DatabaseStorage.getUrl (Url.shortCode url) s = (s, Ok (Some url)).
Proof.
  intros C Hin Hact. unfold DatabaseStorage.getUrl.
  destruct (head_filter_Some (DatabaseStorage.activeWithCode (Url.shortCode url)) (urls s))
    as (x & -> & Hx & [Ex _]%activeWithCode_true).
  - apply existsb_exists. exists url. split; [exact Hin|].
    apply activeWithCode_true. auto.
  - rewrite (NoDup_map_inj Url.shortCode (urls s) x url (shortCodes_unique s C) Hx Hin Ex).
    reflexivity.
Qed.

Lemma getUrlById_of_link (s : Store) (url : Url.t) :
  consistent s -> In url (urls s) ->
  DatabaseStorage.getUrlById (Url.id url) s = (s, Ok (Some url)).
Proof.
  intros C Hin. unfold DatabaseStorage.getUrlById.
  destruct (head_filter_Some (fun u => N.eqb (Url.id u) (Url.id url)) (urls s))
    as (x & -> & Hx & Ex%N.eqb_eq).
  - apply existsb_exists. exists url. split; [exact Hin|apply N.eqb_refl].
  - rewrite (NoDup_map_inj Url.id (urls s) x url (url_ids_unique s C) Hx Hin Ex).
    reflexivity.
Qed.

(** The address the redirect route stores:
    [req.ip || req.connection.remoteAddress || '']. *)
Lemma clickOf_fields hostname url req :
  clk_urlId (clickOf hostname url req) = Url.id url /\
  clk_ipAddress (clickOf hostname url req) =
    Some (or_else (req_ip req) (or_else (req_remoteAddress req) "")) /\
  clk_country (clickOf hostname url req) = Some "US" /\
  clk_city (clickOf hostname url req) = None /\
  fits 50 (clk_device (clickOf hostname url req)) = true /\
  fits 50 (clk_browser (clickOf hostname url req)) = true /\
  fits 50 (clk_os (clickOf hostname url req)) = true.
Proof.
  unfold clickOf.
  destruct (parseUserAgent (or_else (req_userAgent req) "")) as [[browser os] device] eqn:P.
  cbn. repeat split.
  all: revert P; unfold parseUserAgent; intros [= <- <- <-]; split_markers; reflexivity.
Qed.

(** X14. In a reachable store no visit of an active link is redirected: the
    route answers the 500 "Server error", because [recordClick], which it
    awaits, never returns. The visit is logged all the same when the client
    address fits the 45 characters of [ip_address]: one click row is added,
    last, for the link, with that address and the instant of the visit; with
    a longer address nothing is written. [urls] and the snapshots are never
    written. *)
Theorem redirect_of_active_link
    (hostname : string -> option string) (now : Timestamp) (req : RedirectRequest)
    (s : Store) (url : Url.t) :
  reachable s -> In url (urls s) -> Url.isActive url = Some true ->
  req_shortCode req = Url.shortCode url ->
  let address := or_else (req_ip req) (or_else (req_remoteAddress req) "") in
  let s' := fst (redirectRoute hostname now req s) in
  snd (redirectRoute hostname now req s) =
    Ok {| status := 500; body := Text "Server error" |} /\
  urls s' = urls s /\ urlAnalytics s' = urlAnalytics s /\
  (fits 45 (Some address) = true ->
   exists row,
     urlClicks s' = urlClicks s ++ [row] /\
     UrlClick.urlId row = Url.id url /\
     UrlClick.ipAddress row = Some address /\
     UrlClick.clickedAt row = now) /\
  (fits 45 (Some address) = false -> s' = s).
Proof.
  intros R Hin Hact Hcode. cbv zeta.
  pose proof (reachable_consistent s R) as C.
  destruct (clickOf_fields hostname url req) as (Eid & Eip & Ecountry & Ecity & Fd & Fb & Fo).
  assert (Hrun : redirectRoute hostname now req s =
            (fst (DatabaseStorage.insertClick now (clickOf hostname url req) s),
             Ok {| status := 500; body := Text "Server error" |})).
  { unfold redirectRoute, try_catch, bind. cbn [getUrl recordClick databaseStorage].
    rewrite Hcode, (getUrl_of_active_link s url C Hin Hact).
    destruct (recordClick_insertClick now (clickOf hostname url req) s) as [Est (e & Eout)].
    destruct (DatabaseStorage.recordClick now (clickOf hostname url req) s) as [s1 o].
    cbn [fst snd] in Est, Eout. subst s1 o. reflexivity. }
  rewrite Hrun. cbn [fst snd]. split; [reflexivity|].
  destruct (insertClick_row now (clickOf hostname url req) s)
    as [(e & -> & Hwhy)|(-> & HU & Hfit)]; cbn [fst urls urlClicks urlAnalytics].
  - split; [reflexivity|]. split; [reflexivity|]. split; [|reflexivity].
    intros Hip. exfalso. destruct Hwhy as [Hno|Hno].
    + assert (DatabaseStorage.hasUrl (Url.id url) s = true) as HU
        by (apply hasUrl_true; eauto).
      rewrite Eid in Hno. congruence.
    + rewrite Eip, Ecountry, Ecity, Hip, Fd, Fb, Fo in Hno. discriminate.
  - split; [reflexivity|]. split; [reflexivity|]. split.
    + intros _. eexists. split; [reflexivity|].
      cbn [UrlClick.urlId UrlClick.ipAddress UrlClick.clickedAt]. auto.
    + intros Hip. rewrite Eip, Hip in Hfit. discriminate.
Qed.

Lemma redirect_of_active_link_witness :
  let run := redirectRoute Demo.hostname 200 (Demo.visit None "203.0.113.7") Demo.created in
  snd run = Ok {| status := 500; body := Text "Server error" |} /\
  exists row, urlClicks (fst run) = [row] /\ UrlClick.clickedAt row = 200.
Proof.
  cbv zeta.
  assert (R : reachable Demo.created) by exact (reachable_after _ _ reachable_empty).
  assert (Hin : In (Demo.stored None) (urls Demo.created))
    by (vm_compute; left; reflexivity).
  destruct (redirect_of_active_link Demo.hostname 200 (Demo.visit None "203.0.113.7")
              Demo.created (Demo.stored None) R Hin)
    as (E & _ & _ & Hlog & _).
  - reflexivity.
  - reflexivity.
  - split; [exact E|].
    destruct Hlog as (row & Hrows & _ & _ & Hat); [vm_compute; reflexivity|].
    exists row. split; [exact Hrows|exact Hat].
Defined.

(** X10. [getUrl] never writes, and what it returns depends on the short
    code and the active flag alone: a link it returns is a row with that
    code and [isActive = true], whatever its [expiresAt]; it returns nothing
    exactly when no row has that code and [isActive = true], and the
    redirect route then answers 404 and records nothing. *)
Theorem getUrl_selects_on_code_and_active_flag (shortCode : string) (s : Store) :
  exists r, DatabaseStorage.getUrl shortCode s = (s, Ok r) /\
    match r with
    | Some url =>
        In url (urls s) /\ Url.shortCode url = shortCode /\ Url.isActive url = Some true
    | None =>
        (forall url, In url (urls s) -> Url.shortCode url = shortCode ->
                     Url.isActive url <> Some true) /\
        (forall hostname now req, req_shortCode req = shortCode ->
           redirectRoute hostname now req s =
             (s, Ok {| status := 404; body := Text "URL not found" |}))
    end.
Proof.
  eexists. split; [reflexivity|].
  destruct (head (List.filter (DatabaseStorage.activeWithCode shortCode) (urls s)))
    as [url|] eqn:E.
  - apply head_filter_In in E as [Hin Hact].
    apply activeWithCode_true in Hact as [Ec Ea]. auto.
  - split.
    + intros url Hin Ec Ea.
      destruct (head_filter_Some (DatabaseStorage.activeWithCode shortCode) (urls s))
        as (x & Hx & _); [|congruence].
      apply existsb_exists. exists url. split; [exact Hin|].
      apply activeWithCode_true. auto.
    + intros hostname now req <-.
      unfold redirectRoute, try_catch, bind. cbn [getUrl databaseStorage].
      unfold DatabaseStorage.getUrl. rewrite E. reflexivity.
Qed.

Lemma getUrl_selects_witness :
  redirectRoute Demo.hostname 300 (Demo.visit None "203.0.113.7") Demo.retired =
    (Demo.retired, Ok {| status := 404; body := Text "URL not found" |}).
Proof.
  destruct (getUrl_selects_on_code_and_active_flag "abcdefgh" Demo.retired)
    as ([url|] & E & Hr).
  - vm_compute in E. discriminate E.
  - destruct Hr as [_ H404]. apply H404. reflexivity.
Defined.

(** ** Retirement and ownership *)

Lemma retired_code_not_active id (s : Store) (url : Url.t) :
  consistent s -> In url (urls s) -> Url.id url = id ->
  List.filter (DatabaseStorage.activeWithCode (Url.shortCode url))
    (urls (fst (DatabaseStorage.deleteUrl id s))) = [].
Proof.
  intros C Hin Eid. apply filter_nil. cbn. intros u' (u & <- & Hu)%in_map_iff.
  destruct (DatabaseStorage.activeWithCode _ _) eqn:A; [|reflexivity].
  apply activeWithCode_true in A as [Ec Ea].
  destruct (N.eqb_spec (Url.id u) id) as [E|NE]; [cbn in Ea; discriminate|].
  rewrite (NoDup_map_inj Url.shortCode (urls s) u url (shortCodes_unique s C) Hu Hin Ec)
    in NE. tauto.
Qed.

(** X18. In a reachable store, [DELETE /api/urls/:id] by the owner of the
    link answers 200 and retires it; from then on [getUrl] finds nothing
    under its short code and the redirect route answers 404, while the click
    rows and the snapshot of the link are still there as they were. *)
Theorem retired_link_is_not_found (user : string) (s : Store) (url : Url.t) :
  reachable s -> In url (urls s) -> Url.userId url = Some user ->
  exists s',
    deleteRoute user (Url.id url) s =
      (s', Ok {| status := 200; body := Message "URL deleted successfully" |}) /\
    DatabaseStorage.getUrl (Url.shortCode url) s' = (s', Ok None) /\
    (forall hostname now req, req_shortCode req = Url.shortCode url ->
       redirectRoute hostname now req s' =
         (s', Ok {| status := 404; body := Text "URL not found" |})) /\
    urlClicks s' = urlClicks s /\ urlAnalytics s' = urlAnalytics s.
Proof.
  intros R Hin Howner. pose proof (reachable_consistent s R) as C.
  exists (fst (DatabaseStorage.deleteUrl (Url.id url) s)).
  pose proof (retired_code_not_active (Url.id url) s url C Hin eq_refl) as Hnone.
  split; [|split; [|split; [|split; reflexivity]]].
  - unfold deleteRoute, try_catch, bind. cbn [getUrlById deleteUrl databaseStorage].
    rewrite (getUrlById_of_link s url C Hin), Howner.
    rewrite bool_decide_eq_true_2 by reflexivity. reflexivity.
  - unfold DatabaseStorage.getUrl. rewrite Hnone. reflexivity.
  - intros hostname now req Hreq. unfold redirectRoute, try_catch, bind.
    cbn [getUrl databaseStorage]. unfold DatabaseStorage.getUrl. rewrite Hreq, Hnone.
    reflexivity.
Qed.

Lemma retired_link_witness :
  redirectRoute Demo.hostname 300 (Demo.visit None "203.0.113.7") Demo.retired =
    (Demo.retired, Ok {| status := 404; body := Text "URL not found" |}).
Proof.
  assert (R : reachable Demo.created) by exact (reachable_after _ _ reachable_empty).
  assert (Hin : In (Demo.stored None) (urls Demo.created))
    by (vm_compute; left; reflexivity).
  destruct (retired_link_is_not_found "u1" Demo.created (Demo.stored None) R Hin eq_refl)
    as (s' & E & _ & H404 & _).
  assert (Es : s' = Demo.retired) by (vm_compute in E; injection E as <-; reflexivity).
  rewrite <- Es. apply H404. reflexivity.
Defined.

(** X19. [PUT] and [DELETE /api/urls/:id] answer the same 404 "URL not
    found" for an id that no link has and for a link of another owner (or
    without owner), and write nothing in either case. *)
Theorem foreign_link_is_not_found
    (now : Timestamp) (user : string) (id : Id) (updates : UrlPatch) (baseUrl : string)
    (s : Store) (found : option Url.t) :
  snd (DatabaseStorage.getUrlById id s) = Ok found ->
  match found with
  | Some url => Url.userId url <> Some user
  | None => True
  end ->
  updateRoute now user id updates baseUrl s =
    (s, Ok {| status := 404; body := Message "URL not found" |}) /\
  deleteRoute user id s =
    (s, Ok {| status := 404; body := Message "URL not found" |}).
Proof.
  intros Hget Hforeign. cbn in Hget. injection Hget as Hget.
  unfold updateRoute, deleteRoute, try_catch, bind. cbn [getUrlById databaseStorage].
  unfold DatabaseStorage.getUrlById. rewrite Hget.
  destruct found as [url|]; [|split; reflexivity].
  rewrite bool_decide_eq_false_2 by exact Hforeign. split; reflexivity.
Qed.

Lemma foreign_link_witness :
  deleteRoute "u2" 0%N Demo.created =
    (Demo.created, Ok {| status := 404; body := Message "URL not found" |}).
Proof.
  apply (foreign_link_is_not_found 300 "u2" 0%N (Demo.retitle "Landing page")
           "http://localhost:3000" Demo.created (Some (Demo.stored None))).
  - vm_compute. reflexivity.
  - discriminate.
Defined.

(** ** Aliases *)

Lemma checkCustomAlias_of_active_link (s : Store) (u : Url.t) :
  In u (urls s) -> Url.isActive u = Some true ->
  DatabaseStorage.checkCustomAlias (Url.shortCode u) s = (s, Ok true).
Proof.
  intros Hin Hact. unfold DatabaseStorage.checkCustomAlias.
  destruct (head_filter_Some (DatabaseStorage.activeWithCode (Url.shortCode u)) (urls s))
    as (x & Hx & _).
  - apply existsb_exists. exists u. split; [exact Hin|]. apply activeWithCode_true. auto.
  - destruct (List.filter _ (urls s)); [discriminate|reflexivity].
Qed.

(** X20. An alias that is the short code of an active link is refused
    before anything is written: [POST /api/urls] with this [customAlias]
    answers 400 "Custom alias is already taken", and so does [PUT
    /api/urls/:id] by the owner of another link that asks for it; the store
    is left as it was. *)
Theorem taken_alias_is_refused
    (toDataURL : string -> option string) (now : Timestamp) (nano : nat -> string)
    (anyone : option string) (baseUrl : string) (validatedData : InsertUrl)
    (s : Store) (holder : Url.t) :
  In holder (urls s) -> Url.isActive holder = Some true ->
  truthy (Url.shortCode holder) = true ->
  (ins_customAlias validatedData = Some (Url.shortCode holder) ->
   createRoute toDataURL now nano anyone baseUrl (Ok validatedData) s =
     (s, Ok {| status := 400; body := Message "Custom alias is already taken" |})) /\
  (forall user id updates url,
     snd (DatabaseStorage.getUrlById id s) = Ok (Some url) ->
     Url.userId url = Some user ->
     newAlias updates url = Some (Url.shortCode holder) ->
     updateRoute now user id updates baseUrl s =
       (s, Ok {| status := 400; body := Message "Custom alias is already taken" |})).
Proof.
  intros Hin Hact Htruthy.
  pose proof (checkCustomAlias_of_active_link s holder Hin Hact) as Hcheck.
  split.
  - intros Halias. unfold createRoute, try_catch, bind. rewrite Halias.
    cbn [truthy_opt coalesce]. rewrite Htruthy. cbn [checkCustomAlias databaseStorage].
    rewrite Hcheck. reflexivity.
  - intros user id updates url Hget Howner Hnew. cbn in Hget. injection Hget as Hget.
    unfold updateRoute, try_catch, bind. cbn [getUrlById checkCustomAlias databaseStorage].
    unfold DatabaseStorage.getUrlById. rewrite Hget, Howner.
    rewrite bool_decide_eq_true_2 by reflexivity. cbn [negb]. rewrite Hnew, Hcheck.
    reflexivity.
Qed.

Lemma taken_alias_witness :
  createRoute Demo.toDataURL 300 Demo.draws None "http://localhost:3000"
    (Ok (Demo.withAlias "abcdefgh")) Demo.created =
  (Demo.created, Ok {| status := 400; body := Message "Custom alias is already taken" |}).
Proof.
  assert (Hin : In (Demo.stored None) (urls Demo.created))
    by (vm_compute; left; reflexivity).
  destruct (taken_alias_is_refused Demo.toDataURL 300 Demo.draws None
              "http://localhost:3000" (Demo.withAlias "abcdefgh") Demo.created
              (Demo.stored None) Hin eq_refl eq_refl) as [Hpost _].
  apply Hpost. reflexivity.
Defined.

Lemma customAliasValid_truthy (alias : string) :
  customAliasValid alias = true -> truthy alias = true.
Proof.
  unfold customAliasValid. intros H. apply andb_true_iff in H as [H _].
  apply andb_true_iff in H as [_ H]. exact H.
Qed.

Lemma fits_false_of_longer (n : nat) (x : string) :
  (n < String.length x)%nat -> fits n (Some x) = false.
Proof. intros Hlt. cbn. apply Nat.leb_gt. exact Hlt. Qed.

(** X21. The alias rule of the schema allows up to 50 characters but
    [short_code], which receives the alias, is a [varchar(12)]: in a
    reachable store a creation request whose alias passes the rule and is
    longer than 12 characters is never served. The alias check finds no
    holder, the insert is refused, the answer is the 500 "Failed to create
    short URL" and nothing is written. *)
Theorem long_alias_is_never_created
    (toDataURL : string -> option string) (now : Timestamp) (nano : nat -> string)
    (user : option string) (baseUrl : string) (validatedData : InsertUrl)
    (alias : string) (s : Store) :
  reachable s ->
  ins_customAlias validatedData = Some alias ->
  customAliasValid alias = true -> (12 < String.length alias)%nat ->
  createRoute toDataURL now nano user baseUrl (Ok validatedData) s =
    (s, Ok {| status := 500; body := Message "Failed to create short URL" |}).
Proof.
  intros R Halias Hvalid Hlong. pose proof (reachable_consistent s R) as C.
  pose proof (customAliasValid_truthy alias Hvalid) as Htruthy.
  assert (Hcheck : DatabaseStorage.checkCustomAlias alias s = (s, Ok false)).
  { unfold DatabaseStorage.checkCustomAlias. rewrite filter_nil; [reflexivity|].
    intros u Hu. destruct (DatabaseStorage.activeWithCode alias u) eqn:A; [|reflexivity].
    apply activeWithCode_true in A as [Ec _].
    pose proof (shortCodes_fit s C u Hu) as Hfit.
    rewrite Ec, (fits_false_of_longer 12 alias Hlong) in Hfit. discriminate. }
  unfold createRoute, try_catch, bind. rewrite Halias. cbn [truthy_opt coalesce or_else].
  rewrite Htruthy. cbn [checkCustomAlias databaseStorage]. rewrite Hcheck.
  unfold generateQRCode. destruct (toDataURL _) as [qr|]; [|reflexivity].
  unfold ret at 1. cbn [createUrl databaseStorage].
  unfold DatabaseStorage.createUrl, bind, DatabaseStorage.insertUrl,
    DatabaseStorage.generateShortCode. cbn [createArgs ins_shortCode or_else].
  rewrite Htruthy, (fits_false_of_longer 12 alias Hlong). reflexivity.
Qed.

Lemma long_alias_witness :
  createRoute Demo.toDataURL 300 Demo.draws None "http://localhost:3000"
    (Ok (Demo.withAlias "summer-sale-2026")) Demo.created =
  (Demo.created, Ok {| status := 500; body := Message "Failed to create short URL" |}).
Proof.
  assert (R : reachable Demo.created) by exact (reachable_after _ _ reachable_empty).
  apply (long_alias_is_never_created Demo.toDataURL 300 Demo.draws None
           "http://localhost:3000" (Demo.withAlias "summer-sale-2026")
           "summer-sale-2026" Demo.created R).
  - reflexivity.
  - vm_compute. reflexivity.
  - vm_compute. lia.
Defined.

(** ** What a creation request leaves behind *)

(** X22. In a reachable store [POST /api/urls] always answers, with 200, 400
    or 500, and it writes only when it answers 200: the new link then comes
    last in [urls], owned by the requester (a [userId] in the body is
    overridden), with the target and the alias of the request, and the click
    log is untouched; with 400 or 500 the store is exactly as before. *)
Theorem createRoute_writes_only_on_200
    (toDataURL : string -> option string) (now : Timestamp) (nano : nat -> string)
    (user : option string) (baseUrl : string) (parsed : Outcome InsertUrl) (s : Store) :
  reachable s ->
  exists s' response,
    createRoute toDataURL now nano user baseUrl parsed s = (s', Ok response) /\
    ((status response = 200 /\
      exists validatedData url shortUrl,
        parsed = Ok validatedData /\ body response = ShortUrl url shortUrl /\
        urls s' = urls s ++ [url] /\ urlClicks s' = urlClicks s /\
        Url.userId url = user /\
        Url.originalUrl url = ins_originalUrl validatedData /\
        Url.customAlias url = ins_customAlias validatedData) \/
     ((status response = 400 \/ status response = 500) /\ s' = s)).
Proof.
  intros R. pose proof (reachable_consistent s R) as C.
  unfold createRoute, try_catch, bind.
  destruct parsed as [v|e].
  2:{ destruct e; eexists _, _; (split; [reflexivity|]); right; cbn; auto. }
  assert (Hcheck : forall alias, exists b,
            checkCustomAlias (S := Store) alias s = (s, Ok b))
    by (intros alias; eexists; reflexivity).
  destruct (truthy_opt (ins_customAlias v)).
  - destruct (Hcheck (coalesce (ins_customAlias v) "")) as (b & ->).
    destruct b; [eexists _, _; split; [reflexivity|]; right; cbn; auto|].
    unfold generateQRCode. destruct (toDataURL _) as [qr|];
      [|eexists _, _; split; [reflexivity|]; right; cbn; auto].
    unfold ret at 1. cbn [createUrl databaseStorage].
    destruct (createUrl_cases now (nano 1%nat)
                (createArgs v (or_else (ins_customAlias v) (nano 0%nat)) user qr) s C)
      as [[e ->]|(url & -> & _ & _ & _ & Eu & Ea & Eo & _)].
    + destruct e; eexists _, _; (split; [reflexivity|]); right; cbn; auto.
    + eexists _, _. split; [reflexivity|]. left. split; [reflexivity|].
      exists v, url. eexists. repeat split; assumption.
  - unfold ret at 1. cbn iota beta.
    unfold generateQRCode. destruct (toDataURL _) as [qr|];
      [|eexists _, _; split; [reflexivity|]; right; cbn; auto].
    unfold ret at 1. cbn [createUrl databaseStorage].
    destruct (createUrl_cases now (nano 1%nat)
                (createArgs v (or_else (ins_customAlias v) (nano 0%nat)) user qr) s C)
      as [[e ->]|(url & -> & _ & _ & _ & Eu & Ea & Eo & _)].
    + destruct e; eexists _, _; (split; [reflexivity|]); right; cbn; auto.
    + eexists _, _. split; [reflexivity|]. left. split; [reflexivity|].
      exists v, url. eexists. repeat split; assumption.
Qed.

Lemma createRoute_writes_witness :
  exists s' response,
    createRoute Demo.toDataURL 300 Demo.draws (Some "u7") "http://localhost:3000"
      (Ok (Demo.withAlias "promo")) Demo.created = (s', Ok response) /\
    status response = 200 /\ List.map Url.userId (urls s') = [Some "u1"; Some "u7"].
Proof.
  assert (R : reachable Demo.created) by exact (reachable_after _ _ reachable_empty).
  destruct (createRoute_writes_only_on_200 Demo.toDataURL 300 Demo.draws (Some "u7")
              "http://localhost:3000" (Ok (Demo.withAlias "promo")) Demo.created R)
    as (s' & response & E & _).
  exists s', response. split; [exact E|].
  vm_compute in E. injection E as <- <-. split; vm_compute; reflexivity.
Defined.

(** ** Renaming *)

(** X23. In a reachable store, when [PUT /api/urls/:id] moves an active link
    to a new alias and answers 200 (the body leaving [isActive] alone), the
    link answers to the alias from then on and no longer to its former short
    code: [getUrl] of the alias returns the updated row and [getUrl] of the
    former code returns nothing. The [shortUrl] of the answer is built on
    the alias. *)
Theorem renamed_link_moves_to_alias
    (now : Timestamp) (user : string) (id : Id) (updates : UrlPatch) (baseUrl : string)
    (s s' : Store) (url updated : Url.t) (alias shortUrl : string) :
  reachable s ->
  snd (DatabaseStorage.getUrlById id s) = Ok (Some url) ->
  Url.isActive url = Some true -> upd_isActive updates = None ->
  newAlias updates url = Some alias ->
  updateRoute now user id updates baseUrl s =
    (s', Ok {| status := 200; body := ShortUrl updated shortUrl |}) ->
  DatabaseStorage.getUrl alias s' = (s', Ok (Some updated)) /\
  DatabaseStorage.getUrl (Url.shortCode url) s' = (s', Ok None) /\
  shortUrl = (baseUrl ++ "/" ++ alias)%string /\
  Url.id updated = Url.id url /\ Url.originalUrl updated =
    DatabaseStorage.patched (upd_originalUrl updates) (Url.originalUrl url).
Proof.
  intros R Hget Hact Hkeep Hnew. pose proof (reachable_consistent s R) as C.
  cbn in Hget. injection Hget as Hget.
  pose proof (head_filter_In _ _ _ Hget) as [Hin Eid]. apply N.eqb_eq in Eid.
  unfold updateRoute, try_catch, bind. cbn [getUrlById checkCustomAlias databaseStorage].
  unfold DatabaseStorage.getUrlById. rewrite Hget.
  destruct (bool_decide _); cbn [negb]; [|discriminate].
  rewrite Hnew. unfold DatabaseStorage.checkCustomAlias.
  destruct (List.filter (DatabaseStorage.activeWithCode alias) (urls s)) eqn:Hfree;
    [|discriminate].
  unfold applyUpdate, bind. cbn [updateUrl databaseStorage].
  unfold DatabaseStorage.updateUrl.
  destruct (existsb _ _) eqn:V; [discriminate|].
  destruct (List.filter (fun u => N.eqb (Url.id u) id) (urls s)) as [|t targets] eqn:Ht;
    [discriminate|].
  injection Hget as ->. cbn [List.map head]. unfold ret. intros [= <- <- <-].
  (* the alias is not the former code, and no other row has it *)
  assert (Hne : alias <> Url.shortCode url).
  { intros ->. assert (Hx : In url (List.filter
                 (DatabaseStorage.activeWithCode (Url.shortCode url)) (urls s))).
    { apply filter_In. split; [exact Hin|]. apply activeWithCode_true. auto. }
    rewrite Hfree in Hx. destruct Hx. }
  assert (Hother : forall v, In v (urls s) -> Url.id v <> id -> Url.shortCode v <> alias).
  { intros v Hv Nv Ev. rewrite existsb_false_forall in V.
    assert (Hvio : DatabaseStorage.updateViolates (with_shortCode updates alias)
                     (urls s) url = false).
    { apply V. left. reflexivity. }
    unfold DatabaseStorage.updateViolates in Hvio. cbn [with_shortCode upd_shortCode] in Hvio.
    apply orb_false_iff in Hvio as [_ Hvio]. rewrite existsb_false_forall in Hvio.
    specialize (Hvio v Hv). rewrite Ev, String.eqb_refl, andb_true_r in Hvio.
    apply negb_false_iff, N.eqb_eq in Hvio. congruence. }
  set (updated := DatabaseStorage.applyUpdates now (with_shortCode updates alias) url).
  assert (Hrows : forall u', In u' (List.map (DatabaseStorage.updateRow now id
                                     (with_shortCode updates alias)) (urls s)) ->
                  u' = updated \/ (In u' (urls s) /\ Url.id u' <> id)).
  { intros u' (u & <- & Hu)%in_map_iff. unfold DatabaseStorage.updateRow.
    destruct (N.eqb_spec (Url.id u) id) as [E|NE]; [left|right; auto].
    rewrite (NoDup_map_inj Url.id (urls s) u url (url_ids_unique s C) Hu Hin); [reflexivity|].
    congruence. }
  split; [|split; [|split; [reflexivity|split; reflexivity]]].
  - unfold DatabaseStorage.getUrl.
    cbn [urls DatabaseStorage.set_urls fst]. f_equal. f_equal.
    destruct (head_filter_Some (DatabaseStorage.activeWithCode alias)
                (List.map (DatabaseStorage.updateRow now id (with_shortCode updates alias))
                   (urls s))) as (x & -> & Hx & [Ex _]%activeWithCode_true).
    + apply existsb_exists. exists updated. split.
      * apply in_map_iff. exists url. split; [|exact Hin].
        unfold DatabaseStorage.updateRow. rewrite Eid, N.eqb_refl. reflexivity.
      * apply activeWithCode_true. split; [reflexivity|]. cbn. rewrite Hkeep. exact Hact.
    + destruct (Hrows x Hx) as [->|[Hx' Nx]]; [reflexivity|].
      destruct (Hother x Hx' Nx Ex).
  - unfold DatabaseStorage.getUrl.
    cbn [urls DatabaseStorage.set_urls fst]. f_equal. f_equal.
    rewrite filter_nil; [reflexivity|]. intros u' Hu'.
    destruct (DatabaseStorage.activeWithCode _ u') eqn:A; [|reflexivity].
    apply activeWithCode_true in A as [Ec _].
    destruct (Hrows u' Hu') as [->|[Hx' Nx]].
    + cbn in Ec. congruence.
    + rewrite (NoDup_map_inj Url.shortCode (urls s) u' url (shortCodes_unique s C)
                 Hx' Hin Ec) in Nx. tauto.
Qed.

Lemma renamed_link_witness :
  let s' := fst (updateRoute 300 "u1" 0%N (Demo.rename "promo") "http://localhost:3000"
                   Demo.created) in
  snd (DatabaseStorage.getUrl "abcdefgh" s') = Ok None /\
  option_map Url.id (match snd (DatabaseStorage.getUrl "promo" s') with
                     | Ok r => r | Thrown _ => None end) = Some 0%N.
Proof.
  cbv zeta.
  assert (R : reachable Demo.created) by exact (reachable_after _ _ reachable_empty).
  set (run := updateRoute 300 "u1" 0%N (Demo.rename "promo") "http://localhost:3000"
                Demo.created).
  set (updated := DatabaseStorage.applyUpdates 300
                    (with_shortCode (Demo.rename "promo") "promo") (Demo.stored None)).
  destruct (renamed_link_moves_to_alias 300 "u1" 0%N (Demo.rename "promo")
              "http://localhost:3000" Demo.created (fst run) (Demo.stored None)
              updated "promo" "http://localhost:3000/promo" R)
    as (Hnew & Hold & _).
  - vm_compute. reflexivity.
  - reflexivity.
  - reflexivity.
  - vm_compute. reflexivity.
  - vm_compute. reflexivity.
  - split; [exact (f_equal snd Hold)|]. rewrite Hnew. reflexivity.
Defined.

(** ** The bulk route *)

(** An item never throws out of its [try]: it yields a result or an error
    entry, and an error entry names the item. *)
Lemma bulkItem_answers {S : Type} `{IStorage S} (toDataURL : string -> option string)
    now nano user baseUrl urlData (s : S) :
  exists s' entry,
    bulkItem toDataURL now nano user baseUrl urlData s = (s', Ok entry) /\
    forall e, entry = inr e -> err_originalUrl e = item_originalUrl urlData.
Proof.
  unfold bulkItem, try_catch.
  match goal with
  | |- context [match ?m s with _ => _ end] =>
      destruct (m s) as [s' [entry|e]] eqn:E
  end.
  - exists s', entry. split; [reflexivity|]. intros e ->.
    revert E. unfold bind.
    destruct ((if truthy_opt (item_customAlias urlData)
               then checkCustomAlias (coalesce (item_customAlias urlData) "")
               else ret false) s) as [s1 [[]|e1]]; [| |discriminate].
    + intros [= _ <-]. reflexivity.
    + destruct (generateQRCode toDataURL _ s1) as [s2 [qr|e2]]; [|discriminate].
      destruct (createUrl _ _ _ s2) as [s3 [url|e3]]; discriminate.
  - eexists _, _. split; [reflexivity|]. intros e' [= <-]. reflexivity.
Qed.

Lemma bulkLoop_partitions {S : Type} `{IStorage S} (toDataURL : string -> option string)
    now nano user baseUrl items :
  forall i results errors (s : S),
  exists s' results' errors',
    bulkLoop toDataURL now nano user baseUrl items i results errors s =
      (s', Ok (results ++ results', errors ++ errors')) /\
    (length results' + length errors' = length items)%nat /\
    sublist (List.map err_originalUrl errors') (List.map item_originalUrl items).
Proof.
  induction items as [|urlData rest IH]; intros i results errors s; cbn [bulkLoop].
  - exists s, [], []. rewrite !List.app_nil_r. split; [reflexivity|]. split; [reflexivity|].
    constructor.
  - unfold bind at 1.
    destruct (bulkItem_answers toDataURL (now i) (nano i) user baseUrl urlData s)
      as (s1 & entry & -> & Hname).
    destruct entry as [result|error].
    + destruct (IH (Datatypes.S i) (results ++ [result]) errors s1)
        as (s' & results' & errors' & -> & Hlen & Hsub).
      exists s', (result :: results'), errors'. rewrite <- List.app_assoc.
      split; [reflexivity|]. split; [cbn; lia|]. cbn. constructor. exact Hsub.
    + destruct (IH (Datatypes.S i) results (errors ++ [error]) s1)
        as (s' & results' & errors' & -> & Hlen & Hsub).
      exists s', results', (error :: errors'). rewrite <- List.app_assoc.
      split; [reflexivity|]. split; [cbn; lia|]. cbn.
      rewrite (Hname error eq_refl). constructor. exact Hsub.
Qed.

(** X24. Whatever the storage behind [IStorage], a bulk request that passes
    validation is answered 200 and every item lands in exactly one of the
    two lists: the numbers of results and of errors add up to the number of
    items, and the errors name items of the request, in the order of the
    request. No failure of an item ends the batch or reaches the caller. *)
Theorem bulkRoute_partitions_the_batch {S : Type} `{IStorage S}
    (toDataURL : string -> option string) (now : nat -> Timestamp)
    (nano : nat -> nat -> string) (user : string)
    (baseUrl : string) (items : list BulkItem) (s : S) :
  exists s' results errors,
    bulkRoute toDataURL now nano user baseUrl (Ok items) s =
      (s', Ok {| bulk_status := 200; bulk_body := BulkDone results errors |}) /\
    (length results + length errors = length items)%nat /\
    sublist (List.map err_originalUrl errors) (List.map item_originalUrl items).
Proof.
  unfold bulkRoute, try_catch, bind.
  destruct (bulkLoop_partitions toDataURL now nano user baseUrl items 0%nat [] [] s)
    as (s' & results & errors & -> & Hlen & Hsub).
  exists s', results, errors. split; [reflexivity|]. auto.
Qed.

(** X25. In a reachable store an item of a bulk request either creates its
    link or leaves no trace: with a result, the new link comes last in
    [urls], active, owned by the requester, with the target and the alias
    of the item; with an error entry, the store is exactly as it was before
    the item, so the items after it run as if it had not been there. *)
Theorem bulkItem_creates_or_leaves_no_trace
    (toDataURL : string -> option string) (now : Timestamp) (nano : nat -> string)
    (user : string) (baseUrl : string) (urlData : BulkItem) (s : Store) :
  reachable s ->
  exists s' entry,
    bulkItem toDataURL now nano user baseUrl urlData s = (s', Ok entry) /\
    match entry with
    | inl (url, shortUrl) =>
        urls s' = urls s ++ [url] /\ urlClicks s' = urlClicks s /\
        Url.isActive url = Some true /\ Url.userId url = Some user /\
        Url.originalUrl url = item_originalUrl urlData /\
        Url.customAlias url = item_customAlias urlData /\
        (truthy_opt (item_customAlias urlData) = true ->
         Some (Url.shortCode url) = item_customAlias urlData)
    | inr e => s' = s /\ err_originalUrl e = item_originalUrl urlData
    end.
Proof.
  intros R. pose proof (reachable_consistent s R) as C.
  unfold bulkItem, try_catch, bind.
  assert (Hcheck : forall alias, exists b,
            checkCustomAlias (S := Store) alias s = (s, Ok b))
    by (intros alias; eexists; reflexivity).
  assert (Hcreate : forall qr,
    exists s' entry,
      match DatabaseStorage.createUrl now (nano 1%nat)
              (bulkArgs urlData (or_else (item_customAlias urlData) (nano 0%nat)) user qr) s
      with
      | (s1, Ok url) =>
          (s1, Ok (inl (url, (baseUrl ++ "/" ++
                          or_else (item_customAlias urlData) (nano 0%nat))%string)))
      | (s1, Thrown e) =>
          (s1, Ok (inr {| err_originalUrl := item_originalUrl urlData;
                          err_error := message_of e |}))
      end = (s', Ok (entry : Url.t * string + BulkError)) /\
      match entry with
      | inl (url, shortUrl) =>
          urls s' = urls s ++ [url] /\ urlClicks s' = urlClicks s /\
          Url.isActive url = Some true /\ Url.userId url = Some user /\
          Url.originalUrl url = item_originalUrl urlData /\
          Url.customAlias url = item_customAlias urlData /\
          (truthy_opt (item_customAlias urlData) = true ->
           Some (Url.shortCode url) = item_customAlias urlData)
      | inr e => s' = s /\ err_originalUrl e = item_originalUrl urlData
      end).
  { intros qr.
    destruct (createUrl_cases now (nano 1%nat)
                (bulkArgs urlData (or_else (item_customAlias urlData) (nano 0%nat)) user qr)
                s C) as [[e ->]|(url & -> & _ & Ecode & Eact & Eu & Ea & Eo & _)].
    - eexists _, _. split; [reflexivity|]. split; reflexivity.
    - eexists _, _. split; [reflexivity|]. cbn [urls urlClicks].
      repeat split; try assumption.
      intros Htruthy. rewrite Ecode. cbn [bulkArgs ins_shortCode].
      destruct (item_customAlias urlData) as [alias|]; [|discriminate].
      cbn in Htruthy. cbn. rewrite Htruthy. cbn. rewrite Htruthy. reflexivity. }
  destruct (truthy_opt (item_customAlias urlData)).
  - destruct (Hcheck (coalesce (item_customAlias urlData) "")) as (b & ->).
    destruct b; [eexists _, _; split; [reflexivity|]; split; reflexivity|].
    unfold generateQRCode. destruct (toDataURL _) as [qr|];
      [|eexists _, _; split; [reflexivity|]; split; reflexivity].
    unfold ret at 1. cbn [createUrl databaseStorage].
    destruct (Hcreate qr) as (s' & entry & E & Hentry).
    exists s', entry. split; [|exact Hentry].
    rewrite <- E. destruct (DatabaseStorage.createUrl _ _ _ s) as [s1 [url|e]]; reflexivity.
  - unfold ret at 1. cbn iota beta.
    unfold generateQRCode. destruct (toDataURL _) as [qr|];
      [|eexists _, _; split; [reflexivity|]; split; reflexivity].
    unfold ret at 1. cbn [createUrl databaseStorage].
    destruct (Hcreate qr) as (s' & entry & E & Hentry).
    exists s', entry. split; [|exact Hentry].
    rewrite <- E. destruct (DatabaseStorage.createUrl _ _ _ s) as [s1 [url|e]]; reflexivity.
Qed.

Lemma bulkItem_witness :
  exists s' entry,
    bulkItem Demo.toDataURL 300 Demo.draws "u7" "http://localhost:3000"
      {| item_originalUrl := "https://example.com/b"; item_customAlias := Some "promo" |}
      Demo.created = (s', Ok entry) /\
    List.map Url.shortCode (urls s') = ["abcdefgh"; "promo"].
Proof.
  assert (R : reachable Demo.created) by exact (reachable_after _ _ reachable_empty).
  destruct (bulkItem_creates_or_leaves_no_trace Demo.toDataURL 300 Demo.draws "u7"
              "http://localhost:3000"
              {| item_originalUrl := "https://example.com/b";
                 item_customAlias := Some "promo" |} Demo.created R)
    as (s' & entry & E & _).
  exists s', entry. split; [exact E|].
  vm_compute in E. injection E as <- _. vm_compute. reflexivity.
Defined.

(** X26. Within one batch an alias is given once: in a reachable store, when
    an item with a custom alias has produced its link, a later item of the
    batch that asks for the same alias gets the error entry "Custom alias is
    already taken" and writes nothing. *)
Theorem alias_asked_twice_in_a_batch
    (toDataURL : string -> option string) (now1 now2 : Timestamp)
    (nano1 nano2 : nat -> string) (user : string) (baseUrl : string)
    (item1 item2 : BulkItem) (alias : string) (s s1 : Store) (result : Url.t * string) :
  reachable s ->
  item_customAlias item1 = Some alias -> truthy alias = true ->
  item_customAlias item2 = Some alias ->
  bulkItem toDataURL now1 nano1 user baseUrl item1 s = (s1, Ok (inl result)) ->
  bulkItem toDataURL now2 nano2 user baseUrl item2 s1 =
    (s1, Ok (inr {| err_originalUrl := item_originalUrl item2;
                    err_error := "Custom alias is already taken" |})).
Proof.
  intros R Ha1 Htruthy Ha2 E1. pose proof (reachable_consistent s R) as C.
  assert (Hheld : exists url, In url (urls s1) /\ Url.isActive url = Some true
                              /\ Url.shortCode url = alias).
  { revert E1. unfold bulkItem, try_catch, bind. rewrite Ha1. cbn [truthy_opt coalesce or_else].
    rewrite Htruthy. cbn [checkCustomAlias databaseStorage].
    unfold DatabaseStorage.checkCustomAlias.
    destruct (List.filter _ (urls s)); [|discriminate].
    unfold generateQRCode. destruct (toDataURL _) as [qr|]; [|discriminate].
    unfold ret at 1. cbn [createUrl databaseStorage].
    destruct (createUrl_cases now1 (nano1 1%nat) (bulkArgs item1 alias user qr) s C)
      as [[e ->]|(url & -> & _ & Ecode & Eact & _)]; [discriminate|].
    intros [= <- _]. exists url. split; [cbn; apply in_or_app; cbn; auto|].
    split; [exact Eact|]. rewrite Ecode. cbn. rewrite Htruthy. reflexivity. }
  destruct Hheld as (url & Hin & Hact & Hcode).
  pose proof (checkCustomAlias_of_active_link s1 url Hin Hact) as Hcheck.
  rewrite Hcode in Hcheck.
  unfold bulkItem, try_catch, bind. rewrite Ha2. cbn [truthy_opt coalesce].
  rewrite Htruthy. cbn [checkCustomAlias databaseStorage]. rewrite Hcheck. reflexivity.
Qed.

Lemma alias_asked_twice_witness :
  let item := {| item_originalUrl := "https://example.com/b";
                 item_customAlias := Some "promo" |} in
  let s1 := fst (bulkItem Demo.toDataURL 300 Demo.draws "u7" "http://localhost:3000" item
                   Demo.created) in
  bulkItem Demo.toDataURL 301 Demo.draws "u7" "http://localhost:3000" item s1 =
    (s1, Ok (inr {| err_originalUrl := "https://example.com/b";
                    err_error := "Custom alias is already taken" |})).
Proof.
  cbv zeta.
  assert (R : reachable Demo.created) by exact (reachable_after _ _ reachable_empty).
  set (item := {| item_originalUrl := "https://example.com/b";
                  item_customAlias := Some "promo" |}).
  set (run := bulkItem Demo.toDataURL 300 Demo.draws "u7" "http://localhost:3000" item
                Demo.created).
  apply (alias_asked_twice_in_a_batch Demo.toDataURL 300 301 Demo.draws Demo.draws "u7"
           "http://localhost:3000" item item "promo" Demo.created (fst run)
           (match snd run with
            | Ok (inl r) => r
            | _ => (Demo.stored None, "")
            end) R).
  - reflexivity.
  - reflexivity.
  - reflexivity.
  - vm_compute. reflexivity.
Defined.

(** ** Bringing a retired link back *)



